(** * ctools: process-memory tool (src/scr/main.cpp)

    A shallow embedding of [main.cpp] and the properties of its four
    components: the memory trimmer, the process enumerator, the process
    terminator and the dispatcher (interactive menu and one-shot commands).

    Conventions of the embedding.
    - [size_t], [SIZE_T] and [unsigned long long] are 64-bit unsigned
      integers (the x86-64 Linux and Win64 builds), modelled as [N] with the
      wrap-around modulo [2^64] written out.  [unsigned long] is 64 bits on
      the POSIX build (LP64) and 32 bits on the Windows build (LLP64).
    - [int] and [pid_t] are 32-bit signed integers, modelled as [Z].
    - [std::string] is [string]; [std::cout] and [std::cerr] are the strings
      written so far; [std::cin] and [std::ifstream] are the unread input
      together with the [failbit] and [eofbit] flags.
    - The operating system is an explicit world value that the three
      components read and change. *)

From Stdlib Require Import ZArith NArith List String Ascii Bool Lia.
From Stdlib Require Import Decimal DecimalString DecimalPos DecimalN.
Import ListNotations.
Local Open Scope string_scope.

(** ** Machine integers and their decimal text *)

Definition size_t_modulus : N := 2 ^ 64.
Definition SIZE_MAX : N := 2 ^ 64 - 1.
Definition INT_MAX : Z := 2 ^ 31 - 1.
Definition INT_MIN : Z := - 2 ^ 31.
Definition LONG_MAX : Z := 2 ^ 63 - 1.
Definition LONG_MIN : Z := - 2 ^ 63.

(** Arithmetic on [size_t] is modulo [2^64]. *)
Definition wrap_size_t (n : N) : N := (n mod size_t_modulus)%N.

(** Conversion of a signed [long] to [size_t] (the usual arithmetic
    conversion in [resident * pageSize]). *)
Definition size_t_of_long (z : Z) : N := Z.to_N (z mod Z.of_N size_t_modulus).

(** The cast [(int) x] of a [long]. *)
Definition int_of_long (z : Z) : Z := ((z + 2 ^ 31) mod 2 ^ 32 - 2 ^ 31)%Z.

(** [operator<<] on an unsigned and on a signed integer. *)
Definition show_N (n : N) : string := NilZero.string_of_uint (N.to_uint n).
Definition show_Z (z : Z) : string := NilZero.string_of_int (Z.to_int z).

Definition nl : string := String "010"%char EmptyString.

(** ** Character classes and number scanning ([<cctype>], [strtoul]) *)

Definition isspace (c : ascii) : bool :=
  let n := nat_of_ascii c in
  Nat.eqb n 32 || (Nat.leb 9 n && Nat.leb n 13).

Definition isdigit (c : ascii) : bool :=
  let n := nat_of_ascii c in
  Nat.leb 48 n && Nat.leb n 57.

Definition digit_val (c : ascii) : N := N.of_nat (nat_of_ascii c - 48).

Definition is_empty (s : string) : bool :=
  match s with EmptyString => true | String _ _ => false end.

Fixpoint skipws (s : string) : string :=
  match s with
  | String c t => if isspace c then skipws t else s
  | EmptyString => EmptyString
  end.

(** Consumes the longest prefix of decimal digits, accumulating its value
    (without bound: the callers compare it with their own maximum). *)
Fixpoint read_digits (s : string) (acc : N) : N * string :=
  match s with
  | String c t =>
      if isdigit c then read_digits t (acc * 10 + digit_val c)%N else (acc, s)
  | EmptyString => (acc, EmptyString)
  end.

(** An optional sign followed by at least one digit: the subject sequence of
    [strtol]/[strtoul] in base 10 and of [num_get] for a decimal stream.
    Returns the sign and magnitude, or [None] when there is no digit, and the
    unread rest. *)
Definition scan_number (b : string) : option (bool * N) * string :=
  let '(neg, b1) :=
    match b with
    | String c t =>
        if Ascii.eqb c "-" then (true, t)
        else if Ascii.eqb c "+" then (false, t)
        else (false, b)
    | EmptyString => (false, EmptyString)
    end in
  match b1 with
  | String d _ =>
      if isdigit d
      then let '(v, r) := read_digits b1 0 in (Some (neg, v), r)
      else (None, b1)
  | EmptyString => (None, EmptyString)
  end.

(** The value an unsigned conversion yields for an in-range magnitude:
    a leading minus negates in the unsigned type. *)
Definition unsigned_value (max : N) (neg : bool) (v : N) : N :=
  if neg then ((max + 1 - v) mod (max + 1))%N else v.

(** [std::stoul(str)]: [strtoul(str, &end, 10)], throwing
    [std::invalid_argument] when no conversion was performed and
    [std::out_of_range] on [ERANGE]. *)
Inductive exn : Type := invalid_argument | out_of_range.

Definition stoul (ULONG_MAX : N) (str : string) : exn + N :=
  match scan_number (skipws str) with
  | (None, _) => inl invalid_argument
  | (Some (neg, v), _) =>
      if (ULONG_MAX <? v)%N then inl out_of_range
      else inr (unsigned_value ULONG_MAX neg v)
  end.

(** [atoi(s)], as [(int) strtol(s, NULL, 10)]: no conversion yields 0,
    [strtol] saturates at the bounds of [long]. *)
Definition atoi (s : string) : Z :=
  match scan_number (skipws s) with
  | (None, _) => 0%Z
  | (Some (neg, v), _) =>
      let l := if neg then Z.max LONG_MIN (- Z.of_N v) else Z.min LONG_MAX (Z.of_N v) in
      int_of_long l
  end.

(** ** Input streams ([std::istream], [std::ifstream]) *)

Record istream : Type := mk_istream {
  buf : string;       (* the characters not yet extracted *)
  failbit : bool;
  eofbit : bool
}.

Definition good (s : istream) : bool := negb (failbit s) && negb (eofbit s).

(** [!stream] is [stream.fail()]. *)
Definition fail (s : istream) : bool := failbit s.

(** [stream.clear()] *)
Definition clear (s : istream) : istream := mk_istream (buf s) false false.

(** A stream over the given text, in the good state. *)
Definition stream_of (text : string) : istream := mk_istream text false false.

(** [std::ifstream f(path)]: the file's content, or a stream whose
    [failbit] is set when the file cannot be opened. *)
Definition ifstream_open (content : option string) : istream :=
  match content with
  | Some text => stream_of text
  | None => mk_istream EmptyString true false
  end.

(** The sentry of a formatted ([skip = true]) or unformatted input function.
    Returns the stream and whether extraction may proceed. *)
Definition sentry (skip : bool) (s : istream) : istream * bool :=
  if good s then
    if skip then
      match skipws (buf s) with
      | EmptyString => (mk_istream EmptyString true true, false)
      | b => (mk_istream b false false, true)
      end
    else (s, true)
  else (mk_istream (buf s) true (eofbit s), false).

(** [stream >> x] for an unsigned [x] with maximum [max]; [old] is the value
    of [x] before the call, kept when the sentry fails.  A failed conversion
    stores 0, an overflowing one stores [max]; both set [failbit]. *)
Definition get_unsigned (max : N) (old : N) (s : istream) : istream * N :=
  let '(s1, ok) := sentry true s in
  if ok then
    let '(r, rest) := scan_number (buf s1) in
    let eof := is_empty rest in
    match r with
    | None => (mk_istream rest true eof, 0%N)
    | Some (neg, v) =>
        if (max <? v)%N then (mk_istream rest true eof, max)
        else (mk_istream rest false eof, unsigned_value max neg v)
    end
  else (s1, old).

(** [stream >> x] for an [int x]. *)
Definition get_int (old : Z) (s : istream) : istream * Z :=
  let '(s1, ok) := sentry true s in
  if ok then
    let '(r, rest) := scan_number (buf s1) in
    let eof := is_empty rest in
    match r with
    | None => (mk_istream rest true eof, 0%Z)
    | Some (true, v) =>
        if (Z.of_N v >? - INT_MIN)%Z then (mk_istream rest true eof, INT_MIN)
        else (mk_istream rest false eof, (- Z.of_N v)%Z)
    | Some (false, v) =>
        if (Z.of_N v >? INT_MAX)%Z then (mk_istream rest true eof, INT_MAX)
        else (mk_istream rest false eof, Z.of_N v)
    end
  else (s1, old).

(** [stream >> c] for a [char c]. *)
Definition get_char (old : ascii) (s : istream) : istream * ascii :=
  let '(s1, ok) := sentry true s in
  if ok then
    match buf s1 with
    | String c t => (mk_istream t false false, c)
    | EmptyString => (mk_istream EmptyString true true, old)
    end
  else (s1, old).

(** Splits at the first newline: the line, the rest after the newline, and
    whether a newline was found. *)
Fixpoint split_line (s : string) : string * string * bool :=
  match s with
  | String c t =>
      if Ascii.eqb c "010" then (EmptyString, t, true)
      else let '(l, r, f) := split_line t in (String c l, r, f)
  | EmptyString => (EmptyString, EmptyString, false)
  end.

(** [std::getline(stream, str)]; [old] is [str] before the call. *)
Definition getline (old : string) (s : istream) : istream * string :=
  let '(s1, ok) := sentry false s in
  if ok then
    let '(line, rest, found) := split_line (buf s1) in
    if found then (mk_istream rest false false, line)
    else (mk_istream EmptyString (is_empty line) true, line)
  else (s1, old).

(** ** Process records and the platform interface *)

(** One element of the vector returned by [listHighMemoryProcesses]:
    the tuple [(pid, name, rss)]. *)
Record proc_record : Type := mk_record {
  rec_pid : Z;
  rec_name : string;
  rec_rss : N          (* residentBytes *)
}.

(** [thresholdMB * 1024ULL * 1024ULL], in 64-bit unsigned arithmetic. *)
Definition threshold_bytes (thresholdMB : N) : N :=
  wrap_size_t (wrap_size_t (thresholdMB * 1024) * 1024).

(** The three platform-specific functions of [main.cpp]; the file has one
    implementation under [_WIN32] and one for POSIX.  [trim] returns the new
    world and the text it wrote to [std::cout] and to [std::cerr]. *)
Class Platform : Type := {
  world : Type;
  ULONG_MAX : N;
  trimCurrentProcessWorkingSet : world -> world * string * string;
  listHighMemoryProcesses : N -> world -> list proc_record;
  tryTerminateProcess : Z -> world -> bool * world
}.

(** ** The Windows implementation *)

Module Windows.

(** An entry of the toolhelp snapshot.  [szExeFile] is [None] when the
    name cannot be converted ([tchar_to_utf8] then yields the empty
    string). *)
Record PROCESSENTRY32 : Type := mk_entry {
  th32ProcessID : Z;
  szExeFile : option string
}.

(** A live process, as the calls on it behave for the caller. *)
Record process : Type := mk_process {
  proc_id : Z;
  query_access : bool;      (* OpenProcess(QUERY_INFORMATION|VM_READ) succeeds *)
  working_set : option N;   (* WorkingSetSize, or None: GetProcessMemoryInfo fails *)
  terminate_access : bool;  (* OpenProcess(PROCESS_TERMINATE) succeeds *)
  terminate_result : Z      (* the BOOL returned by TerminateProcess *)
}.

Record world : Type := mk_world {
  snapshot : option (list PROCESSENTRY32);  (* None: INVALID_HANDLE_VALUE *)
  processes : list process;
  self_working_set : option N;   (* GetProcessMemoryInfo on the current process *)
  trim_outcome : Z + option N;   (* SetProcessWorkingSetSize(h,-1,-1): inl GetLastError,
                                    or inr the counters readable afterwards *)
  terminated : list Z            (* pids whose termination the OS accepted *)
}.

(** A handle names a process by its id; [GetCurrentProcess()] is the
    pseudo-handle -1. *)
Definition HANDLE : Type := Z.
Definition GetCurrentProcess : HANDLE := (-1)%Z.
Definition TRUE : Z := 1.

Definition find_process (w : world) (pid : Z) : option process :=
  find (fun p => Z.eqb (proc_id p) pid) (processes w).

Inductive access : Type := QUERY_VM_READ | PROCESS_TERMINATE.

(** [OpenProcess(access, FALSE, pid)]; [None] is the null handle. *)
Definition OpenProcess (w : world) (a : access) (pid : Z) : option HANDLE :=
  match find_process w pid with
  | Some p =>
      let allowed := match a with
                     | QUERY_VM_READ => query_access p
                     | PROCESS_TERMINATE => terminate_access p
                     end in
      if allowed then Some pid else None
  | None => None
  end.

(** [GetProcessMemoryInfo(h, &pmc, sizeof pmc)]: the working set size when
    the call succeeds. *)
Definition GetProcessMemoryInfo (w : world) (h : HANDLE) : option N :=
  if Z.eqb h GetCurrentProcess then self_working_set w
  else match find_process w h with
       | Some p => working_set p
       | None => None
       end.

Definition getProcessWorkingSet (w : world) (h : HANDLE) : N :=
  match GetProcessMemoryInfo w h with
  | Some ws => ws
  | None => 0%N
  end.

Definition tchar_to_utf8 (s : option string) : string :=
  match s with
  | Some text => text
  | None => EmptyString
  end.

(** [SetProcessWorkingSetSize(h, -1, -1)] on the current process. *)
Definition SetProcessWorkingSetSize (w : world) : bool * world :=
  match trim_outcome w with
  | inl _ => (false, w)
  | inr ws => (true, mk_world (snapshot w) (processes w) ws (trim_outcome w) (terminated w))
  end.

Definition GetLastError (w : world) : Z :=
  match trim_outcome w with
  | inl e => e
  | inr _ => 0%Z
  end.

Definition trimCurrentProcessWorkingSet (w : world) : world * string * string :=
  let h := GetCurrentProcess in
  let before := getProcessWorkingSet w h in
  let out1 := "Before trim: " ++ show_N (before / 1024) ++ " KB" ++ nl in
  let '(ok, w1) := SetProcessWorkingSetSize w in
  let err := if ok then EmptyString
             else "SetProcessWorkingSetSize failed, error="
                  ++ show_Z (GetLastError w1) ++ nl in
  let after := getProcessWorkingSet w1 h in
  let out2 := "After  trim: " ++ show_N (after / 1024) ++ " KB" ++ nl in
  (w1, out1 ++ out2, err).

(** The body of the [do ... while (Process32Next)] loop, for one entry:
    the records it appends to [out]. *)
Definition scan_entry (w : world) (thresholdMB : N) (pe : PROCESSENTRY32)
  : list proc_record :=
  let pid := th32ProcessID pe in
  let name := tchar_to_utf8 (szExeFile pe) in
  let rss := match OpenProcess w QUERY_VM_READ pid with
             | Some h => getProcessWorkingSet w h
             | None => 0%N
             end in
  if (threshold_bytes thresholdMB <=? rss)%N
  then [mk_record pid name rss]
  else [].

Fixpoint scan_entries (w : world) (thresholdMB : N) (es : list PROCESSENTRY32)
  : list proc_record :=
  match es with
  | [] => []
  | pe :: rest => scan_entry w thresholdMB pe ++ scan_entries w thresholdMB rest
  end.

Definition listHighMemoryProcesses (thresholdMB : N) (w : world) : list proc_record :=
  match snapshot w with
  | None => []
  | Some es => scan_entries w thresholdMB es
  end.

(** [TerminateProcess(h, 1)]: an accepted request is recorded and the
    process leaves the table. *)
Definition TerminateProcess (w : world) (h : HANDLE) : Z * world :=
  match find_process w h with
  | None => (0%Z, w)
  | Some p =>
      let ok := terminate_result p in
      if Z.eqb ok 0 then (ok, w)
      else (ok, mk_world (snapshot w)
                  (filter (fun q => negb (Z.eqb (proc_id q) h)) (processes w))
                  (self_working_set w) (trim_outcome w)
                  (terminated w ++ [h]))
  end.

Definition tryTerminateProcess (pid : Z) (w : world) : bool * world :=
  match OpenProcess w PROCESS_TERMINATE pid with
  | None => (false, w)
  | Some h =>
      let '(ok, w1) := TerminateProcess w h in
      (Z.eqb ok TRUE, w1)
  end.

End Windows.

#[export] Instance WindowsPlatform : Platform := {|
  world := Windows.world;
  ULONG_MAX := 2 ^ 32 - 1;
  trimCurrentProcessWorkingSet := Windows.trimCurrentProcessWorkingSet;
  listHighMemoryProcesses := Windows.listHighMemoryProcesses;
  tryTerminateProcess := Windows.tryTerminateProcess
|}.

(** ** The POSIX implementation *)

Module Posix.

(** The three build variants selected by [__linux__] and [__GLIBC__]. *)
Inductive target : Type := LinuxGlibc | LinuxOther | OtherPosix.

Record world : Type := mk_world {
  proc_dir : option (list string);  (* the d_name of each entry of /proc, in readdir
                                       order; None: opendir fails *)
  files : list (string * string);   (* path and content of the files that open *)
  pagesize : Z;                     (* sysconf(_SC_PAGESIZE) *)
  self_resident : N;                (* resident bytes of the calling process *)
  malloc_trim_outcome : Z * N;      (* malloc_trim(0): its result, and the resident
                                       bytes of the caller afterwards *)
  processes : list (Z * bool);      (* live pids of the other processes (the caller is
                                       not among them), and whether the caller may
                                       signal them *)
  signalled : list Z                (* pids to which SIGTERM was sent *)
}.

Fixpoint lookup_file (fs : list (string * string)) (path : string) : option string :=
  match fs with
  | [] => None
  | (p, content) :: rest => if String.eqb p path then Some content else lookup_file rest path
  end.

Definition open_file (w : world) (path : string) : istream :=
  ifstream_open (lookup_file (files w) path).

(** [malloc_trim(0)] *)
Definition malloc_trim (w : world) : Z * world :=
  let '(r, resident) := malloc_trim_outcome w in
  (r, mk_world (proc_dir w) (files w) (pagesize w) resident
        (malloc_trim_outcome w) (processes w) (signalled w)).

Definition trimCurrentProcessWorkingSet (t : target) (w : world)
  : world * string * string :=
  match t with
  | LinuxGlibc =>
      let out1 := "Requesting malloc_trim (glibc) if available..." ++ nl in
      let '(r, w1) := malloc_trim w in
      (w1, out1 ++ "malloc_trim returned " ++ show_Z r ++ nl, EmptyString)
  | LinuxOther =>
      let out1 := "Requesting malloc_trim (glibc) if available..." ++ nl in
      (w, out1 ++ "malloc_trim not available on this platform." ++ nl, EmptyString)
  | OtherPosix =>
      (w, "No portable trim available on this POSIX platform." ++ nl, EmptyString)
  end.

(** The body of the [while ((e = readdir(d)) != nullptr)] loop, for one
    entry: the records it appends to [out]. *)
Definition scan_entry (w : world) (thresholdMB : N) (d_name : string)
  : list proc_record :=
  let pid := atoi d_name in
  if (pid <=? 0)%Z then []
  else
    let statm := "/proc/" ++ d_name ++ "/statm" in
    let f := open_file w statm in
    if fail f then []
    else
      let '(f1, sizePages) := get_unsigned SIZE_MAX 0 f in
      let '(f2, resident) := get_unsigned SIZE_MAX 0 f1 in
      let pageSize := pagesize w in
      let rss := wrap_size_t (resident * size_t_of_long pageSize) in
      if (threshold_bytes thresholdMB <=? rss)%N then
        let commPath := "/proc/" ++ d_name ++ "/comm" in
        let c := open_file w commPath in
        let name := if fail c then EmptyString else snd (getline EmptyString c) in
        [mk_record pid name rss]
      else [].

Fixpoint scan_entries (w : world) (thresholdMB : N) (es : list string)
  : list proc_record :=
  match es with
  | [] => []
  | e :: rest => scan_entry w thresholdMB e ++ scan_entries w thresholdMB rest
  end.

Definition listHighMemoryProcesses (t : target) (thresholdMB : N) (w : world)
  : list proc_record :=
  match t with
  | LinuxGlibc | LinuxOther =>
      match proc_dir w with
      | None => []
      | Some es => scan_entries w thresholdMB es
      end
  | OtherPosix => []
  end.

Fixpoint lookup_process (ps : list (Z * bool)) (pid : Z) : option bool :=
  match ps with
  | [] => None
  | (p, allowed) :: rest => if Z.eqb p pid then Some allowed else lookup_process rest pid
  end.

(** [kill(pid, SIGTERM)] for the positive pid of another process: 0 when
    the signal is sent, -1 when there is no such process (ESRCH) or the
    caller may not signal it (EPERM).  A process signalling itself, or a
    process group ([pid <= 0]), is outside this model. *)
Definition kill_SIGTERM (w : world) (pid : Z) : Z * world :=
  match lookup_process (processes w) pid with
  | Some true =>
      (0%Z, mk_world (proc_dir w) (files w) (pagesize w) (self_resident w)
              (malloc_trim_outcome w) (processes w) (signalled w ++ [pid]))
  | Some false => ((-1)%Z, w)
  | None => ((-1)%Z, w)
  end.

Definition tryTerminateProcess (pid : Z) (w : world) : bool * world :=
  let '(r, w1) := kill_SIGTERM w pid in
  if Z.eqb r 0 then (true, w1) else (false, w1).

End Posix.

#[export] Instance PosixPlatform (t : Posix.target) : Platform := {|
  world := Posix.world;
  ULONG_MAX := 2 ^ 64 - 1;
  trimCurrentProcessWorkingSet := Posix.trimCurrentProcessWorkingSet t;
  listHighMemoryProcesses := Posix.listHighMemoryProcesses t;
  tryTerminateProcess := Posix.tryTerminateProcess
|}.

(** ** The dispatcher: interactive menu and one-shot commands

    The dispatcher is the same text for both platforms (its two [#ifdef]
    branches differ only in the C++ types of the tuple), so it is written
    once over the [Platform] interface. *)

(** The component calls the dispatcher makes, recorded in order (a ghost
    field: the program keeps no such log). *)
Inductive call : Type :=
| CallTrim
| CallList (thresholdMB : N)
| CallTerminate (pid : Z).

Section Dispatcher.

Context {P : Platform}.

Record io : Type := mk_io {
  cin : istream;
  cout : string;
  cerr : string;
  os : world;
  calls : list call
}.

(** [std::cout << text] *)
Definition print (text : string) (st : io) : io :=
  mk_io (cin st) (cout st ++ text) (cerr st) (os st) (calls st).

Definition set_cin (c : istream) (st : io) : io :=
  mk_io c (cout st) (cerr st) (os st) (calls st).

(** The calls of the three components, on the dispatcher's state. *)
Definition call_trim (st : io) : io :=
  let '(w, out, err) := trimCurrentProcessWorkingSet (os st) in
  mk_io (cin st) (cout st ++ out) (cerr st ++ err) w (calls st ++ [CallTrim]).

Definition call_list (thresholdMB : N) (st : io) : list proc_record * io :=
  (listHighMemoryProcesses thresholdMB (os st),
   mk_io (cin st) (cout st) (cerr st) (os st) (calls st ++ [CallList thresholdMB])).

Definition call_terminate (pid : Z) (st : io) : bool * io :=
  let '(ok, w) := tryTerminateProcess pid (os st) in
  (ok, mk_io (cin st) (cout st) (cerr st) w (calls st ++ [CallTerminate pid])).

(** The [for (auto &t : procs)] loop of the interactive menu. *)
Fixpoint menu_loop (procs : list proc_record) (doKill : bool) (st : io) : io :=
  match procs with
  | [] => st
  | t :: rest =>
      let pid := rec_pid t in
      let name := rec_name t in
      let rss := rec_rss t in
      let st1 := print (" PID=" ++ show_Z pid ++ " name=" ++ name ++ " rssMB="
                        ++ show_N (rss / 1024 / 1024) ++ nl) st in
      let st2 :=
        if doKill then
          let st' := print ("  Intentando terminar PID " ++ show_Z pid ++ " ... ") st1 in
          let '(ok, st'') := call_terminate pid st' in
          print (if ok then "OK" ++ nl else "FAILED" ++ nl) st''
        else st1 in
      menu_loop rest doKill st2
  end.

Definition menu_text : string :=
  nl ++ "Menu:" ++ nl
  ++ " 1) Eliminar memoria del proceso actual" ++ nl
  ++ " 2) Listar procesos que consumen memoria (y opcionalmente terminarlos)" ++ nl
  ++ " 3) Eliminar memoria y procesar procesos (1+2)" ++ nl
  ++ " 4) Salir" ++ nl
  ++ "Elige una opción: ".

Definition invalid_option_text : string :=
  "Entrada no válida. Intenta de nuevo." ++ nl.

Definition threshold_prompt : string := "Umbral en MB para listar procesos: ".

Definition invalid_threshold_text : string :=
  "Umbral inválido. Volviendo al menú." ++ nl.

Definition kill_prompt : string := "Intentar terminar procesos listados? (s/n): ".

Definition menu_header (threshold : N) : string :=
  "Procesos con >= " ++ show_N threshold ++ " MB:" ++ nl.

Definition is_yes (killch : ascii) : bool :=
  Ascii.eqb killch "s" || Ascii.eqb killch "S"
  || Ascii.eqb killch "y" || Ascii.eqb killch "Y".

(** The listing step of the menu once the threshold and the answer to the
    kill question have been read. *)
Definition menu_list (threshold : N) (doKill : bool) (st : io) : io :=
  let st := print (menu_header threshold) st in
  let '(procs, st) := call_list threshold st in
  menu_loop procs doKill st.

Inductive loop_ctl : Type := Continue | Break.

(** One pass through the body of [while (true)] in [runInteractiveMenu],
    ending in [continue] (also at the end of the body) or [break]. *)
Definition menu_body (st : io) : loop_ctl * io :=
  let st := print menu_text st in
  let '(c1, opt) := get_int 0 (cin st) in
  let st := set_cin c1 st in
  if fail c1 then
    let '(c2, skip) := getline EmptyString (clear c1) in
    (Continue, print invalid_option_text (set_cin c2 st))
  else if (opt =? 4)%Z then (Break, st)
  else
    let st := if ((opt =? 1) || (opt =? 3))%Z then call_trim st else st in
    if ((opt =? 2) || (opt =? 3))%Z then
      let st := print threshold_prompt st in
      let '(c2, threshold) := get_unsigned SIZE_MAX 0 (cin st) in
      let st := set_cin c2 st in
      if fail c2 then
        let '(c3, s) := getline EmptyString (clear c2) in
        (Continue, print invalid_threshold_text (set_cin c3 st))
      else
        let st := print kill_prompt st in
        let '(c3, killch) := get_char "n" (cin st) in
        let st := set_cin c3 st in
        let doKill := is_yes killch in
        (Continue, menu_list threshold doKill st)
    else (Continue, st).

(** [runInteractiveMenu]: the loop runs until option 4 is read; [None] when
    it has not ended within [fuel] passes. *)
Fixpoint runInteractiveMenu (fuel : nat) (st : io) : option io :=
  match fuel with
  | O => None
  | S n =>
      match menu_body st with
      | (Break, st') => Some st'
      | (Continue, st') => runInteractiveMenu n st'
      end
  end.

Definition alternate_main (st : io) : io :=
  let st := print ("Alternate main: trimming current process working set..." ++ nl) st in
  let st := call_trim st in
  print ("Done. Use the program with arguments to list/kill processes." ++ nl) st.

(** The [for (auto &t : procs)] loop of [main]. *)
Fixpoint main_loop (procs : list proc_record) (doKill : bool) (st : io) : io :=
  match procs with
  | [] => st
  | t :: rest =>
      let pid := rec_pid t in
      let name := rec_name t in
      let rss := rec_rss t in
      let st1 := print ("PID=" ++ show_Z pid ++ " name=" ++ name ++ " rssMB="
                        ++ show_N (rss / 1024 / 1024) ++ nl) st in
      let st2 :=
        if doKill then
          let st' := print ("  Attempting to terminate PID " ++ show_Z pid ++ " ... ") st1 in
          let '(ok, st'') := call_terminate pid st' in
          print (if ok then "OK" ++ nl else "FAILED" ++ nl) st''
        else st1 in
      main_loop rest doKill st2
  end.

Definition none_found_text (threshold : N) : string :=
  "No processes found using >= " ++ show_N threshold ++ " MB" ++ nl.

(** The [list] branch of [main] once the threshold has been parsed. *)
Definition main_list (threshold : N) (doKill : bool) (st : io) : io :=
  let '(procs, st) := call_list threshold st in
  let st := match procs with
            | [] => print (none_found_text threshold) st
            | _ :: _ => st
            end in
  main_loop procs doKill st.

Definition usage_text (argv0 : string) : string :=
  "Usage:" ++ nl
  ++ "  " ++ argv0 ++ " trim" ++ nl
  ++ "  " ++ argv0 ++ " list <thresholdMB> [--kill]" ++ nl
  ++ "  " ++ argv0 ++ " alt" ++ nl.

(** How a run of [main] ends: it returns an exit status, an exception
    leaves [main] uncaught ([std::terminate]), or the interactive loop has
    not ended within the fuel. *)
Inductive outcome : Type :=
| Returned (status : Z) (st : io)
| Uncaught (e : exn) (st : io)
| OutOfFuel.

(** [argc >= 4 && std::string(argv[3]) == "--kill"], on the arguments after
    [argv[2]]. *)
Definition kill_flag (more : list string) : bool :=
  match more with
  | arg3 :: _ => String.eqb arg3 "--kill"
  | [] => false
  end.

Definition main (fuel : nat) (argv : list string) (st : io) : outcome :=
  match argv with
  | [] | [_] =>
      match runInteractiveMenu fuel st with
      | Some st' => Returned 0 st'
      | None => OutOfFuel
      end
  | argv0 :: cmd :: args =>
      if String.eqb cmd "trim" then Returned 0 (call_trim st)
      else
        match String.eqb cmd "list", args with
        | true, arg2 :: more =>
            match stoul ULONG_MAX arg2 with
            | inl e => Uncaught e st
            | inr threshold =>
                let doKill := kill_flag more in
                Returned 0 (main_list threshold doKill st)
            end
        | _, _ =>
            if String.eqb cmd "alt" then Returned 0 (alternate_main st)
            else Returned 1 (print (usage_text argv0) st)
        end
  end.

End Dispatcher.

Arguments io P : clear implicits.
Arguments outcome P : clear implicits.

(** * Definitions used in the statements *)

(** Windows: the working set the loop body reads for a pid (0 when the
    process cannot be opened or queried). *)
Definition win_rss (w : Windows.world) (pid : Z) : N :=
  match Windows.OpenProcess w Windows.QUERY_VM_READ pid with
  | Some h => Windows.getProcessWorkingSet w h
  | None => 0%N
  end.

(** Linux: the resident size an entry's [statm] stream yields. *)
Definition linux_rss (w : Posix.world) (f : istream) : N :=
  let '(f1, sizePages) := get_unsigned SIZE_MAX 0 f in
  let '(f2, resident) := get_unsigned SIZE_MAX 0 f1 in
  wrap_size_t (resident * size_t_of_long (Posix.pagesize w)).

(** Linux: the name read from an entry's [comm]. *)
Definition linux_name (w : Posix.world) (d_name : string) : string :=
  let c := Posix.open_file w ("/proc/" ++ d_name ++ "/comm") in
  if fail c then EmptyString else snd (getline EmptyString c).

Definition MB : N := 1048576.

(** A Linux world with three processes: 101 (100 MB), 102 (1 MB) and 103
    (50 MB, its [comm] unreadable, not signalable by the caller); 104 has
    left [/proc] between [readdir] and the opening of its [statm]. *)
Definition linux_fixture : Posix.world :=
  Posix.mk_world
    (Some ["."; ".."; "self"; "101"; "102"; "103"; "104"; "cpuinfo"])
    [("/proc/101/statm", "30000 25600 100 1 0 2 0" ++ nl);
     ("/proc/101/comm", "big" ++ nl);
     ("/proc/102/statm", "300 256 100 1 0 2 0" ++ nl);
     ("/proc/102/comm", "small" ++ nl);
     ("/proc/103/statm", "30000 12800 100 1 0 2 0" ++ nl)]
    4096 (8 * MB) (1%Z, 7 * MB)%N
    [(101%Z, true); (102%Z, true); (103%Z, false)]
    [].

(** A Windows world with three processes in the snapshot: 4 (cannot be
    opened), 200 (200 MB) and 300 (2 MB, cannot be terminated). *)
Definition windows_fixture : Windows.world :=
  Windows.mk_world
    (Some [Windows.mk_entry 4 (Some "System");
           Windows.mk_entry 200 (Some "big.exe");
           Windows.mk_entry 300 (Some "small.exe")])
    [Windows.mk_process 4 false None false 0;
     Windows.mk_process 200 true (Some (200 * MB)%N) true 1;
     Windows.mk_process 300 true (Some (2 * MB)%N) false 0]
    (Some (8 * MB)%N) (inr (Some (7 * MB)%N))
    [].

(** The policy of the specification, in its words: the record of such a
    process is either omitted or included with [residentBytes = 0] and an
    empty name. *)
Definition omitted_or_zeroed (pid : Z) (out : list proc_record) : Prop :=
  forall r, In r out -> rec_pid r = pid ->
            rec_rss r = 0%N /\ rec_name r = EmptyString.

(** Reading the memory of a Windows process fails: it cannot be opened, or
    [GetProcessMemoryInfo] fails on its handle. *)
Definition win_memory_unreadable (w : Windows.world) (pid : Z) : Prop :=
  Windows.OpenProcess w Windows.QUERY_VM_READ pid = None \/
  exists h, Windows.OpenProcess w Windows.QUERY_VM_READ pid = Some h /\
            Windows.GetProcessMemoryInfo w h = None.

(** The claim of C2 in its words: what a call of the trimmer gives back
    determines the pair [(beforeBytes, afterBytes)] of the resident sizes of
    the current process before and after the request.  The C++ function
    returns [void]; what it gives back is the text it writes. *)
Definition returns_before_after {W : Type}
  (trim : W -> W * string * string) (resident : W -> N) : Prop :=
  exists report : string * string -> N * N,
    forall w, report (snd (fst (trim w)), snd (trim w))
              = (resident w, resident (fst (fst (trim w)))).

Definition win_resident (w : Windows.world) : N :=
  Windows.getProcessWorkingSet w Windows.GetCurrentProcess.

Definition linux_bigger : Posix.world :=
  Posix.mk_world (Posix.proc_dir linux_fixture) (Posix.files linux_fixture)
    (Posix.pagesize linux_fixture) (9 * MB)
    (Posix.malloc_trim_outcome linux_fixture) (Posix.processes linux_fixture)
    (Posix.signalled linux_fixture).

Definition windows_bigger : Windows.world :=
  Windows.mk_world (Windows.snapshot windows_fixture)
    (Windows.processes windows_fixture) (Some (8 * MB + 1)%N)
    (Windows.trim_outcome windows_fixture) (Windows.terminated windows_fixture).

Definition kb_line (label : string) (bytes : N) : string :=
  label ++ show_N (bytes / 1024) ++ " KB" ++ nl.

Definition windows_trim_denied : Windows.world :=
  Windows.mk_world (Windows.snapshot windows_fixture)
    (Windows.processes windows_fixture) (Some (8 * MB)%N) (inl 5%Z)
    (Windows.terminated windows_fixture).

Definition linux_start (input : string) : io (PosixPlatform Posix.LinuxGlibc) :=
  @mk_io (PosixPlatform Posix.LinuxGlibc)
    (stream_of input) EmptyString EmptyString linux_fixture [].

Definition windows_start (input : string) : io WindowsPlatform :=
  @mk_io WindowsPlatform (stream_of input) EmptyString EmptyString windows_fixture [].

(** The claim of C4 on the printed text, in its words: for the same request
    in the same state the listing of the one-shot path and the listing of
    the menu are the same text. *)
Definition same_listing_text (P : Platform) : Prop :=
  forall (T : N) (doKill : bool) (st : io P),
    cout (main_list T doKill st) = cout (menu_list T doKill st).

Fixpoint no_newline (s : string) : bool :=
  match s with
  | String c t => negb (Ascii.eqb c "010") && no_newline t
  | EmptyString => true
  end.

Section ListingReport.

Context {P : Platform}.

(** What a listing loop does, with the wording of its two lines as
    parameters: the text it prints and the world it leaves. *)
Fixpoint loop_report (indent attempt : string) (procs : list proc_record)
  (doKill : bool) (w : world) : string * world :=
  match procs with
  | [] => (EmptyString, w)
  | t :: rest =>
      let line := indent ++ "PID=" ++ show_Z (rec_pid t) ++ " name=" ++ rec_name t
                  ++ " rssMB=" ++ show_N (rec_rss t / 1024 / 1024) ++ nl in
      if doKill then
        let '(ok, w1) := tryTerminateProcess (rec_pid t) w in
        let '(text, w2) := loop_report indent attempt rest doKill w1 in
        (line ++ attempt ++ show_Z (rec_pid t) ++ " ... "
              ++ (if ok then "OK" else "FAILED") ++ nl ++ text, w2)
      else
        let '(text, w2) := loop_report indent attempt rest doKill w in
        (line ++ text, w2)
  end.

(** The calls a listing loop makes. *)
Definition loop_calls (procs : list proc_record) (doKill : bool) : list call :=
  if doKill then map (fun t => CallTerminate (rec_pid t)) procs else [].

End ListingReport.

(** The text does not go on with a decimal digit (it is empty or starts
    with another character): where a number that precedes it ends. *)
Definition starts_with_digit (s : string) : bool :=
  match s with
  | String c _ => isdigit c
  | EmptyString => false
  end.

(** The text [line] occurs in what was written, [out]. *)
Definition prints (line out : string) : Prop :=
  exists before after : string, out = before ++ line ++ after.

(** A threshold that is a number, in the words of the specification: a
    non-empty text of decimal digits only. *)
Fixpoint only_digits (s : string) : bool :=
  match s with
  | String c t => isdigit c && only_digits t
  | EmptyString => true
  end.

Definition all_digits (s : string) : bool := negb (is_empty s) && only_digits s.

(** * Properties *)

(** ** The threshold in bytes *)

Lemma threshold_bytes_mod (T : N) :
  threshold_bytes T = ((T * 1048576) mod 2 ^ 64)%N.
Proof.
  unfold threshold_bytes, wrap_size_t, size_t_modulus.
  rewrite N.Div0.mul_mod_idemp_l.
  f_equal. lia.
Qed.

(** Below [2^44] MB the product does not wrap. *)
Lemma threshold_bytes_exact (T : N) :
  (T < 2 ^ 44)%N -> threshold_bytes T = (T * 1024 * 1024)%N.
Proof.
  intros H. rewrite threshold_bytes_mod.
  change (2 ^ 44)%N with 17592186044416%N in H.
  change (2 ^ 64)%N with 18446744073709551616%N.
  rewrite N.mod_small by lia. lia.
Qed.

Lemma threshold_bytes_0 : threshold_bytes 0 = 0%N.
Proof. reflexivity. Qed.

(** At [2^44] MB it wraps to 0. *)
Lemma threshold_bytes_wraps : threshold_bytes (2 ^ 44) = 0%N.
Proof. reflexivity. Qed.

Lemma threshold_bytes_positive (T : N) :
  (1 <= T)%N -> (T < 2 ^ 44)%N -> (0 < threshold_bytes T)%N.
Proof.
  intros H1 H2. rewrite threshold_bytes_exact by assumption. lia.
Qed.

(** ** The enumerator: what one entry contributes *)

Lemma win_scan_entry_cases w T pe :
  Windows.scan_entry w T pe =
    if (threshold_bytes T <=? win_rss w (Windows.th32ProcessID pe))%N
    then [mk_record (Windows.th32ProcessID pe)
                    (Windows.tchar_to_utf8 (Windows.szExeFile pe))
                    (win_rss w (Windows.th32ProcessID pe))]
    else [].
Proof. reflexivity. Qed.

Lemma win_scan_entry_bound w T pe r :
  In r (Windows.scan_entry w T pe) -> (threshold_bytes T <= rec_rss r)%N.
Proof.
  rewrite win_scan_entry_cases.
  destruct (N.leb_spec (threshold_bytes T) (win_rss w (Windows.th32ProcessID pe)))
    as [Hle | Hlt]; simpl; [| tauto].
  intros [<- | []]. exact Hle.
Qed.

Lemma win_scan_entries_bound w T es r :
  In r (Windows.scan_entries w T es) -> (threshold_bytes T <= rec_rss r)%N.
Proof.
  induction es as [| pe es IH]; simpl; [tauto |].
  rewrite in_app_iff. intros [H | H]; eauto using win_scan_entry_bound.
Qed.

Lemma win_scan_entries_app w T es1 es2 :
  Windows.scan_entries w T (es1 ++ es2) =
  (Windows.scan_entries w T es1 ++ Windows.scan_entries w T es2)%list.
Proof.
  induction es1 as [| pe es1 IH]; simpl; [reflexivity |].
  rewrite IH, app_assoc. reflexivity.
Qed.

(** With threshold 0 every entry yields its record. *)
Lemma win_scan_entry_0 w pe :
  Windows.scan_entry w 0 pe =
    [mk_record (Windows.th32ProcessID pe)
               (Windows.tchar_to_utf8 (Windows.szExeFile pe))
               (win_rss w (Windows.th32ProcessID pe))].
Proof.
  rewrite win_scan_entry_cases, threshold_bytes_0.
  rewrite (proj2 (N.leb_le _ _) (N.le_0_l _)). reflexivity.
Qed.

Lemma win_scan_entry_sub w T pe :
  incl (Windows.scan_entry w T pe) (Windows.scan_entry w 0 pe).
Proof.
  rewrite win_scan_entry_0, win_scan_entry_cases.
  destruct (threshold_bytes T <=? _)%N; [apply incl_refl | apply incl_nil_l].
Qed.

Lemma win_scan_entries_sub w T es :
  incl (Windows.scan_entries w T es) (Windows.scan_entries w 0 es).
Proof.
  induction es as [| pe es IH]; [apply incl_refl |].
  cbn [Windows.scan_entries].
  apply incl_app.
  - apply incl_appl, win_scan_entry_sub.
  - apply incl_appr, IH.
Qed.

Lemma linux_scan_entry_cases w T d_name :
  Posix.scan_entry w T d_name =
    if (atoi d_name <=? 0)%Z then []
    else
      let f := Posix.open_file w ("/proc/" ++ d_name ++ "/statm") in
      if fail f then []
      else if (threshold_bytes T <=? linux_rss w f)%N
           then [mk_record (atoi d_name) (linux_name w d_name) (linux_rss w f)]
           else [].
Proof.
  unfold Posix.scan_entry, linux_rss, linux_name.
  destruct (atoi d_name <=? 0)%Z; [reflexivity |].
  destruct (fail _); [reflexivity |].
  destruct (get_unsigned SIZE_MAX 0 _) as [f1 sizePages].
  destruct (get_unsigned SIZE_MAX 0 f1) as [f2 resident].
  reflexivity.
Qed.

Lemma linux_scan_entry_bound w T e r :
  In r (Posix.scan_entry w T e) -> (threshold_bytes T <= rec_rss r)%N.
Proof.
  rewrite linux_scan_entry_cases.
  destruct (atoi e <=? 0)%Z; simpl; [tauto |].
  destruct (fail _); simpl; [tauto |].
  match goal with |- context [(?a <=? ?b)%N] => destruct (N.leb_spec a b) as [Hle | Hlt] end;
    simpl; [| tauto].
  intros [<- | []]. exact Hle.
Qed.

Lemma linux_scan_entries_bound w T es r :
  In r (Posix.scan_entries w T es) -> (threshold_bytes T <= rec_rss r)%N.
Proof.
  induction es as [| e es IH]; simpl; [tauto |].
  rewrite in_app_iff. intros [H | H]; eauto using linux_scan_entry_bound.
Qed.

Lemma linux_scan_entries_app w T es1 es2 :
  Posix.scan_entries w T (es1 ++ es2) =
  (Posix.scan_entries w T es1 ++ Posix.scan_entries w T es2)%list.
Proof.
  induction es1 as [| e es1 IH]; simpl; [reflexivity |].
  rewrite IH, app_assoc. reflexivity.
Qed.

Lemma linux_scan_entry_sub w T e :
  incl (Posix.scan_entry w T e) (Posix.scan_entry w 0 e).
Proof.
  rewrite !linux_scan_entry_cases.
  destruct (atoi e <=? 0)%Z; [apply incl_refl |].
  cbv zeta.
  destruct (fail _); [apply incl_refl |].
  rewrite threshold_bytes_0, (proj2 (N.leb_le _ _) (N.le_0_l _)).
  destruct (threshold_bytes T <=? _)%N; [apply incl_refl | apply incl_nil_l].
Qed.

Lemma linux_scan_entries_sub w T es :
  incl (Posix.scan_entries w T es) (Posix.scan_entries w 0 es).
Proof.
  induction es as [| e es IH]; [apply incl_refl |].
  cbn [Posix.scan_entries].
  apply incl_app.
  - apply incl_appl, linux_scan_entry_sub.
  - apply incl_appr, IH.
Qed.

(** Every record returned meets the computed (wrapped) bound, on every
    platform. *)
Lemma listed_meets_computed_bound :
  (forall T w r, In r (Windows.listHighMemoryProcesses T w) ->
                 (threshold_bytes T <= rec_rss r)%N) /\
  (forall t T w r, In r (Posix.listHighMemoryProcesses t T w) ->
                   (threshold_bytes T <= rec_rss r)%N).
Proof.
  split.
  - intros T w r. unfold Windows.listHighMemoryProcesses.
    destruct (Windows.snapshot w); [apply win_scan_entries_bound | intros []].
  - intros t T w r. unfold Posix.listHighMemoryProcesses.
    destruct t; try (simpl; tauto);
      (destruct (Posix.proc_dir w); [apply linux_scan_entries_bound | simpl; tauto]).
Qed.

(** For thresholds below [2^44] MB, where the product does not wrap, every
    record returned has [residentBytes >= T * 1024 * 1024]. *)
Lemma listed_meets_threshold_in_range :
  forall T, (T < 2 ^ 44)%N ->
    (forall w r, In r (Windows.listHighMemoryProcesses T w) ->
                 (T * 1024 * 1024 <= rec_rss r)%N) /\
    (forall t w r, In r (Posix.listHighMemoryProcesses t T w) ->
                   (T * 1024 * 1024 <= rec_rss r)%N).
Proof.
  intros T HT. rewrite <- (threshold_bytes_exact T HT).
  split; intros;
    [eapply (proj1 listed_meets_computed_bound)
    | eapply (proj2 listed_meets_computed_bound)]; eassumption.
Qed.

(** ** Synthetic process lists *)

Example linux_fixture_list_50 :
  Posix.listHighMemoryProcesses Posix.LinuxGlibc 50 linux_fixture =
  [mk_record 101 "big" (100 * MB); mk_record 103 EmptyString (50 * MB)].
Proof. reflexivity. Qed.

Example linux_fixture_list_0 :
  Posix.listHighMemoryProcesses Posix.LinuxGlibc 0 linux_fixture =
  [mk_record 101 "big" (100 * MB); mk_record 102 "small" (1 * MB);
   mk_record 103 EmptyString (50 * MB)].
Proof. reflexivity. Qed.

Example windows_fixture_list_1 :
  Windows.listHighMemoryProcesses 1 windows_fixture =
  [mk_record 200 "big.exe" (200 * MB); mk_record 300 "small.exe" (2 * MB)].
Proof. reflexivity. Qed.

Example windows_fixture_list_0 :
  Windows.listHighMemoryProcesses 0 windows_fixture =
  [mk_record 4 "System" 0; mk_record 200 "big.exe" (200 * MB);
   mk_record 300 "small.exe" (2 * MB)].
Proof. reflexivity. Qed.

(** ** C1: listed records and the threshold *)

(** C1 (the code departs from the claim).  The claim: for every threshold T
    in MB, every record returned by [listHighMemoryProcesses T] has
    [residentBytes >= T * 1024 * 1024].  The bound is computed in 64-bit
    arithmetic, so at T = 2^44 = 17592186044416 it wraps to 0 and every
    process is returned: on Linux the 1 MB process 102 and on Windows the
    2 MB process 300 are listed although they are far below T MB, and
    [list 17592186044416] prints all three processes of the Linux fixture.
    ([listed_meets_threshold_in_range] is the claim for T < 2^44.) *)
Theorem list_threshold_overflow :
  let T := 17592186044416%N in
  (In (mk_record 102 "small" (1 * MB))
      (Posix.listHighMemoryProcesses Posix.LinuxGlibc T linux_fixture)
   /\ (1 * MB < T * 1024 * 1024)%N)
  /\
  (In (mk_record 300 "small.exe" (2 * MB))
      (Windows.listHighMemoryProcesses T windows_fixture)
   /\ (2 * MB < T * 1024 * 1024)%N)
  /\
  (exists st',
      main 0 ["prog"; "list"; "17592186044416"] (linux_start EmptyString)
      = Returned 0 st'
      /\ cout st' = "PID=101 name=big rssMB=100" ++ nl
                    ++ "PID=102 name=small rssMB=1" ++ nl
                    ++ "PID=103 name= rssMB=50" ++ nl).
Proof.
  cbv zeta. split; [| split].
  - split; [vm_compute; tauto | reflexivity].
  - split; [vm_compute; tauto | reflexivity].
  - eexists. split; reflexivity.
Qed.

(** ** C5: threshold 0 lists a superset *)

(** C5.  Over the same process list, the pids returned by
    [listHighMemoryProcesses 0] include the pids returned by
    [listHighMemoryProcesses T] for every T > 0, on the Windows and on the
    POSIX path. *)
Theorem threshold_zero_superset :
  forall (T : N) (ww : Windows.world) (t : Posix.target) (pw : Posix.world),
    (0 < T)%N ->
    incl (map rec_pid (Windows.listHighMemoryProcesses T ww))
         (map rec_pid (Windows.listHighMemoryProcesses 0 ww))
    /\
    incl (map rec_pid (Posix.listHighMemoryProcesses t T pw))
         (map rec_pid (Posix.listHighMemoryProcesses t 0 pw)).
Proof.
  intros T ww t pw _. split.
  - apply incl_map. unfold Windows.listHighMemoryProcesses.
    destruct (Windows.snapshot ww); [apply win_scan_entries_sub | apply incl_refl].
  - apply incl_map. unfold Posix.listHighMemoryProcesses.
    destruct t; try apply incl_refl;
      (destruct (Posix.proc_dir pw); [apply linux_scan_entries_sub | apply incl_refl]).
Qed.

Lemma threshold_zero_superset_witness :
  (0 < 50)%N /\
  incl (map rec_pid (Windows.listHighMemoryProcesses 50 windows_fixture))
       (map rec_pid (Windows.listHighMemoryProcesses 0 windows_fixture))
  /\
  incl (map rec_pid (Posix.listHighMemoryProcesses Posix.LinuxGlibc 50 linux_fixture))
       (map rec_pid (Posix.listHighMemoryProcesses Posix.LinuxGlibc 0 linux_fixture)).
Proof.
  split; [reflexivity |].
  apply (threshold_zero_superset 50 windows_fixture Posix.LinuxGlibc linux_fixture).
  reflexivity.
Defined.

(** ** C9 and C10: processes that cannot be read *)

Lemma win_memory_unreadable_rss w pid :
  win_memory_unreadable w pid -> win_rss w pid = 0%N.
Proof.
  unfold win_rss, Windows.getProcessWorkingSet.
  intros [-> | (h & -> & ->)]; reflexivity.
Qed.

(** A Windows process whose memory cannot be read is listed at threshold 0
    with [residentBytes = 0] and its snapshot name, and omitted at
    thresholds from 1 up to (not including) 2^44 MB. *)
Lemma win_unreadable_entry w pe :
  win_memory_unreadable w (Windows.th32ProcessID pe) ->
  Windows.scan_entry w 0 pe =
    [mk_record (Windows.th32ProcessID pe)
               (Windows.tchar_to_utf8 (Windows.szExeFile pe)) 0]
  /\ forall T, (1 <= T < 2 ^ 44)%N -> Windows.scan_entry w T pe = [].
Proof.
  intros H. split.
  - rewrite win_scan_entry_0, (win_memory_unreadable_rss _ _ H). reflexivity.
  - intros T [H1 H2]. rewrite win_scan_entry_cases, (win_memory_unreadable_rss _ _ H).
    pose proof (threshold_bytes_positive T H1 H2) as Hpos.
    destruct (N.leb_spec (threshold_bytes T) 0); [lia | reflexivity].
Qed.

(** A Linux process whose [statm] cannot be opened is omitted at every
    threshold. *)
Lemma linux_unopenable_statm_entry w T d_name :
  Posix.lookup_file (Posix.files w) ("/proc/" ++ d_name ++ "/statm") = None ->
  Posix.scan_entry w T d_name = [].
Proof.
  intros H. rewrite linux_scan_entry_cases.
  destruct (atoi d_name <=? 0)%Z; [reflexivity |].
  unfold Posix.open_file. rewrite H. reflexivity.
Qed.

(** C9 (fails as stated).  On Linux, process 103 of the fixture has an
    unreadable name and is listed with its real resident size; on Windows,
    process 4 cannot be opened and is listed at threshold 0 with its
    snapshot name: neither record is omitted, neither is zeroed. *)
Lemma unreadable_policy_counterexample :
  (Posix.lookup_file (Posix.files linux_fixture) "/proc/103/comm" = None /\
   ~ omitted_or_zeroed 103
       (Posix.listHighMemoryProcesses Posix.LinuxGlibc 50 linux_fixture))
  /\
  (Windows.OpenProcess windows_fixture Windows.QUERY_VM_READ 4 = None /\
   ~ omitted_or_zeroed 4 (Windows.listHighMemoryProcesses 0 windows_fixture)).
Proof.
  split; (split; [reflexivity |]).
  - intros H.
    destruct (H (mk_record 103 EmptyString (50 * MB))) as [Hrss _];
      [vm_compute; tauto | reflexivity | discriminate Hrss].
  - intros H.
    destruct (H (mk_record 4 "System" 0)) as [_ Hname];
      [vm_compute; tauto | reflexivity | discriminate Hname].
Qed.

(** C9 (amended).  A failed read never aborts the enumeration: every entry
    is processed on its own, whatever the entries before it did.  A Windows
    process whose memory cannot be read counts as resident size 0: it is
    listed with [residentBytes = 0] and its snapshot name at threshold 0 and
    omitted at thresholds from 1 up to (not including) 2^44 MB.  A Linux
    process whose [statm] cannot be opened is omitted; one whose [comm]
    cannot be opened is listed, when its resident size meets the threshold
    (below 2^44 MB), with that resident size and an empty name. *)
Theorem unreadable_policy :
  (forall w T es1 pe es2,
      Windows.scan_entries w T (es1 ++ pe :: es2) =
      (Windows.scan_entries w T es1 ++ Windows.scan_entry w T pe
       ++ Windows.scan_entries w T es2)%list)
  /\
  (forall w T es1 e es2,
      Posix.scan_entries w T (es1 ++ e :: es2) =
      (Posix.scan_entries w T es1 ++ Posix.scan_entry w T e
       ++ Posix.scan_entries w T es2)%list)
  /\
  (forall w pe, win_memory_unreadable w (Windows.th32ProcessID pe) ->
      Windows.scan_entry w 0 pe =
        [mk_record (Windows.th32ProcessID pe)
                   (Windows.tchar_to_utf8 (Windows.szExeFile pe)) 0]
      /\ forall T, (1 <= T < 2 ^ 44)%N -> Windows.scan_entry w T pe = [])
  /\
  (forall w T d_name,
      Posix.lookup_file (Posix.files w) ("/proc/" ++ d_name ++ "/statm") = None ->
      Posix.scan_entry w T d_name = [])
  /\
  (forall w T d_name text,
      (T < 2 ^ 44)%N ->
      (0 < atoi d_name)%Z ->
      Posix.lookup_file (Posix.files w) ("/proc/" ++ d_name ++ "/statm") = Some text ->
      Posix.lookup_file (Posix.files w) ("/proc/" ++ d_name ++ "/comm") = None ->
      Posix.scan_entry w T d_name =
        if (T * 1024 * 1024 <=? linux_rss w (stream_of text))%N
        then [mk_record (atoi d_name) EmptyString (linux_rss w (stream_of text))]
        else []).
Proof.
  split; [| split; [| split; [| split]]].
  - intros. rewrite win_scan_entries_app. reflexivity.
  - intros. rewrite linux_scan_entries_app. reflexivity.
  - intros w pe H. apply win_unreadable_entry, H.
  - intros w T d_name H. apply linux_unopenable_statm_entry, H.
  - intros w T d_name text HT Hpid Hstatm Hcomm.
    rewrite linux_scan_entry_cases, (threshold_bytes_exact T HT).
    destruct (Z.leb_spec (atoi d_name) 0); [lia |].
    unfold linux_name, Posix.open_file. rewrite Hstatm, Hcomm. reflexivity.
Qed.

Lemma unreadable_policy_witness :
  Windows.scan_entry windows_fixture 0 (Windows.mk_entry 4 (Some "System")) =
    [mk_record 4 "System" 0]
  /\ Windows.scan_entry windows_fixture 50 (Windows.mk_entry 4 (Some "System")) = []
  /\ Posix.scan_entry linux_fixture 0 "104" = []
  /\ Posix.scan_entry linux_fixture 50 "103" = [mk_record 103 EmptyString (50 * MB)].
Proof.
  destruct unreadable_policy as (_ & _ & Hwin & Hstatm & Hcomm).
  destruct (Hwin windows_fixture (Windows.mk_entry 4 (Some "System"))) as [H0 HT];
    [left; reflexivity |].
  split; [exact H0 |].
  split; [apply HT; split; [discriminate | reflexivity] |].
  split; [apply Hstatm; reflexivity |].
  apply (Hcomm linux_fixture 50%N "103" ("30000 12800 100 1 0 2 0" ++ nl));
    reflexivity.
Defined.

(** C10 (the code departs from the claim).  The claim: on Windows a process
    that cannot be opened is omitted from [listHighMemoryProcesses T] for
    every T >= 1.  At T = 2^44 = 17592186044416 the bound wraps to 0 (the
    defect shown for C1) and process 4 of the fixture, which cannot be
    opened, is listed with [residentBytes = 0]; the menu (option 2, that
    threshold) prints it under its header.  The rest of the claim is
    [win_unreadable_entry] (threshold 0 and thresholds below 2^44) and
    [linux_unopenable_statm_entry] (the Linux path). *)
Theorem unopenable_listed_at_wrapped_threshold :
  Windows.OpenProcess windows_fixture Windows.QUERY_VM_READ 4 = None
  /\ (1 <= 17592186044416)%N
  /\ Windows.listHighMemoryProcesses 17592186044416 windows_fixture =
       [mk_record 4 "System" 0; mk_record 200 "big.exe" (200 * MB);
        mk_record 300 "small.exe" (2 * MB)]
  /\ (exists st',
        menu_body (windows_start ("2" ++ nl ++ "17592186044416" ++ nl ++ "n" ++ nl))
        = (Continue, st')
        /\ cout st' = menu_text ++ threshold_prompt ++ kill_prompt
                      ++ "Procesos con >= 17592186044416 MB:" ++ nl
                      ++ " PID=4 name=System rssMB=0" ++ nl
                      ++ " PID=200 name=big.exe rssMB=200" ++ nl
                      ++ " PID=300 name=small.exe rssMB=2" ++ nl).
Proof.
  split; [reflexivity |]. split; [discriminate |]. split; [reflexivity |].
  eexists. split; reflexivity.
Qed.

(** ** C6: the process terminator *)

Lemma posix_tryTerminate_kill pid w :
  Posix.tryTerminateProcess pid w =
    (Z.eqb (fst (Posix.kill_SIGTERM w pid)) 0, snd (Posix.kill_SIGTERM w pid)).
Proof.
  unfold Posix.tryTerminateProcess.
  destruct (Posix.kill_SIGTERM w pid) as [r w1]; simpl.
  destruct (Z.eqb r 0); reflexivity.
Qed.

Lemma win_open_terminate_some w pid h :
  Windows.OpenProcess w Windows.PROCESS_TERMINATE pid = Some h ->
  h = pid /\ exists p, Windows.find_process w pid = Some p
                       /\ Windows.terminate_access p = true.
Proof.
  unfold Windows.OpenProcess.
  destruct (Windows.find_process w pid) as [p |]; [| discriminate].
  destruct (Windows.terminate_access p) eqn:Ha; [| discriminate].
  intros [= <-]. eauto.
Qed.

(** C6.  [tryTerminateProcess pid] is a total function (it raises nothing)
    that returns [false] and leaves the system as it was when the pid does
    not exist, when the caller lacks the privilege, and when the system call
    itself reports an error; it returns [true] only if the operating system
    accepted the request ([kill] returned 0; [TerminateProcess] returned
    [TRUE] on an opened handle), which the world then records. *)
Theorem terminate_false_on_failure :
  forall (pid : Z) (pw : Posix.world) (ww : Windows.world),
    (* POSIX *)
    (Posix.lookup_process (Posix.processes pw) pid = None ->
       Posix.tryTerminateProcess pid pw = (false, pw))
    /\ (Posix.lookup_process (Posix.processes pw) pid = Some false ->
          Posix.tryTerminateProcess pid pw = (false, pw))
    /\ (fst (Posix.kill_SIGTERM pw pid) <> 0%Z ->
          fst (Posix.tryTerminateProcess pid pw) = false)
    /\ (fst (Posix.tryTerminateProcess pid pw) = true ->
          fst (Posix.kill_SIGTERM pw pid) = 0%Z
          /\ Posix.signalled (snd (Posix.tryTerminateProcess pid pw))
             = (Posix.signalled pw ++ [pid])%list)
    (* Windows *)
    /\ (Windows.find_process ww pid = None ->
          Windows.tryTerminateProcess pid ww = (false, ww))
    /\ (forall p, Windows.find_process ww pid = Some p ->
          Windows.terminate_access p = false ->
          Windows.tryTerminateProcess pid ww = (false, ww))
    /\ (forall p, Windows.find_process ww pid = Some p ->
          Windows.terminate_result p = 0%Z ->
          Windows.tryTerminateProcess pid ww = (false, ww))
    /\ (fst (Windows.tryTerminateProcess pid ww) = true ->
          exists p, Windows.find_process ww pid = Some p
                    /\ Windows.terminate_access p = true
                    /\ Windows.terminate_result p = Windows.TRUE
                    /\ Windows.terminated (snd (Windows.tryTerminateProcess pid ww))
                       = (Windows.terminated ww ++ [pid])%list).
Proof.
  intros pid pw ww.
  repeat match goal with |- _ /\ _ => split end.
  - intros H. unfold Posix.tryTerminateProcess, Posix.kill_SIGTERM.
    rewrite H. reflexivity.
  - intros H. unfold Posix.tryTerminateProcess, Posix.kill_SIGTERM.
    rewrite H. reflexivity.
  - rewrite posix_tryTerminate_kill. simpl. intros H.
    apply Z.eqb_neq. exact H.
  - rewrite posix_tryTerminate_kill. simpl. intros H.
    apply Z.eqb_eq in H. split; [exact H |].
    revert H. unfold Posix.kill_SIGTERM.
    destruct (Posix.lookup_process (Posix.processes pw) pid) as [[|] |];
      simpl; [reflexivity | discriminate | discriminate].
  - intros H. unfold Windows.tryTerminateProcess, Windows.OpenProcess.
    rewrite H. reflexivity.
  - intros p H Ha. unfold Windows.tryTerminateProcess, Windows.OpenProcess.
    rewrite H, Ha. reflexivity.
  - intros p H Hr. unfold Windows.tryTerminateProcess, Windows.OpenProcess.
    rewrite H. destruct (Windows.terminate_access p); [| reflexivity].
    unfold Windows.TerminateProcess. rewrite H, Hr. reflexivity.
  - unfold Windows.tryTerminateProcess.
    destruct (Windows.OpenProcess ww Windows.PROCESS_TERMINATE pid) as [h |] eqn:Ho;
      [| discriminate].
    apply win_open_terminate_some in Ho. destruct Ho as (-> & p & Hp & Ha).
    unfold Windows.TerminateProcess. rewrite Hp.
    destruct (Z.eqb_spec (Windows.terminate_result p) 0) as [H0 | H0]; simpl.
    + rewrite H0. discriminate.
    + intros H. apply Z.eqb_eq in H. exists p. auto.
Qed.

Lemma terminate_false_on_failure_witness :
  Posix.tryTerminateProcess 999 linux_fixture = (false, linux_fixture)
  /\ Posix.tryTerminateProcess 103 linux_fixture = (false, linux_fixture)
  /\ fst (Posix.kill_SIGTERM linux_fixture 101) = 0%Z
  /\ Windows.tryTerminateProcess 999 windows_fixture = (false, windows_fixture)
  /\ Windows.tryTerminateProcess 300 windows_fixture = (false, windows_fixture)
  /\ Windows.terminated (snd (Windows.tryTerminateProcess 200 windows_fixture)) = [200%Z].
Proof.
  destruct (terminate_false_on_failure 999 linux_fixture windows_fixture)
    as (Hp & _ & _ & _ & Hw & _).
  destruct (terminate_false_on_failure 103 linux_fixture windows_fixture)
    as (_ & Hperm & _).
  destruct (terminate_false_on_failure 101 linux_fixture windows_fixture)
    as (_ & _ & _ & Hacc & _).
  destruct (terminate_false_on_failure 300 linux_fixture windows_fixture)
    as (_ & _ & _ & _ & _ & Hwa & _).
  destruct (terminate_false_on_failure 200 linux_fixture windows_fixture)
    as (_ & _ & _ & _ & _ & _ & _ & Hwt).
  split; [apply Hp; reflexivity |].
  split; [apply Hperm; reflexivity |].
  split; [apply Hacc; reflexivity |].
  split; [apply Hw; reflexivity |].
  split; [apply (Hwa (Windows.mk_process 300 true (Some (2 * MB)%N) false 0));
          reflexivity |].
  destruct Hwt as (p & _ & _ & _ & Ht); [reflexivity | exact Ht].
Defined.

(** ** Facts about strings *)

Lemma append_assoc (a b c : string) : (a ++ b) ++ c = a ++ (b ++ c).
Proof. induction a as [| x a IH]; simpl; [reflexivity | rewrite IH; reflexivity]. Qed.

Lemma append_nil_r (a : string) : a ++ EmptyString = a.
Proof. induction a as [| x a IH]; simpl; [reflexivity | rewrite IH; reflexivity]. Qed.

(** ** The two listing loops *)

Section DispatcherFacts.

Context {P : Platform}.

Lemma loop_calls_cons t rest doKill :
  loop_calls (t :: rest) doKill =
  ((if doKill then [CallTerminate (rec_pid t)] else []) ++ loop_calls rest doKill)%list.
Proof. destruct doKill; reflexivity. Qed.

(** The world a loop leaves does not depend on the wording. *)
Lemma loop_report_world indent attempt indent' attempt' procs doKill w :
  snd (loop_report indent attempt procs doKill w) =
  snd (loop_report indent' attempt' procs doKill w).
Proof.
  revert w. induction procs as [| t rest IH]; intros w; simpl; [reflexivity |].
  destruct doKill.
  - destruct (tryTerminateProcess (rec_pid t) w) as [ok w1].
    specialize (IH w1).
    destruct (loop_report indent attempt rest true w1),
             (loop_report indent' attempt' rest true w1).
    exact IH.
  - specialize (IH w).
    destruct (loop_report indent attempt rest false w),
             (loop_report indent' attempt' rest false w).
    exact IH.
Qed.

Lemma main_loop_spec procs doKill (st : io P) :
  main_loop procs doKill st =
  mk_io (cin st)
        (cout st ++ fst (loop_report EmptyString "  Attempting to terminate PID "
                           procs doKill (os st)))
        (cerr st)
        (snd (loop_report EmptyString "  Attempting to terminate PID "
                procs doKill (os st)))
        (calls st ++ loop_calls procs doKill).
Proof.
  revert st. induction procs as [| t rest IH]; intros st.
  - destruct st, doKill; simpl; rewrite append_nil_r, app_nil_r; reflexivity.
  - cbn [main_loop]. rewrite IH, loop_calls_cons. clear IH.
    cbn [loop_report]. destruct doKill.
    + unfold call_terminate, print. cbn -[append].
      destruct (tryTerminateProcess (rec_pid t) (os st)) as [ok w1]. cbn -[append].
      destruct (loop_report _ _ rest true w1) as [text w2]. cbn -[append].
      rewrite <- app_assoc. f_equal.
      destruct ok; rewrite !append_assoc; reflexivity.
    + unfold print. cbn -[append].
      destruct (loop_report _ _ rest false (os st)) as [text w2]. cbn -[append].
      rewrite !append_assoc. reflexivity.
Qed.

Lemma menu_loop_spec procs doKill (st : io P) :
  menu_loop procs doKill st =
  mk_io (cin st)
        (cout st ++ fst (loop_report " " "  Intentando terminar PID "
                           procs doKill (os st)))
        (cerr st)
        (snd (loop_report " " "  Intentando terminar PID " procs doKill (os st)))
        (calls st ++ loop_calls procs doKill).
Proof.
  revert st. induction procs as [| t rest IH]; intros st.
  - destruct st, doKill; simpl; rewrite append_nil_r, app_nil_r; reflexivity.
  - cbn [menu_loop]. rewrite IH, loop_calls_cons. clear IH.
    cbn [loop_report]. destruct doKill.
    + unfold call_terminate, print. cbn -[append].
      destruct (tryTerminateProcess (rec_pid t) (os st)) as [ok w1]. cbn -[append].
      destruct (loop_report _ _ rest true w1) as [text w2]. cbn -[append].
      rewrite <- app_assoc. f_equal.
      destruct ok; rewrite !append_assoc; reflexivity.
    + unfold print. cbn -[append].
      destruct (loop_report _ _ rest false (os st)) as [text w2]. cbn -[append].
      rewrite !append_assoc. reflexivity.
Qed.

End DispatcherFacts.

(** ** C2: the memory trimmer *)

(** C2 (fails as stated).  On the POSIX path the trimmer samples nothing:
    two worlds whose callers hold 8 MB and 9 MB give back the same text.  On
    Windows it prints kilobytes, so 8 MB and 8 MB + 1 byte give back the same
    text.  No pair of byte counts can be read off either. *)
Lemma trim_returns_no_pair :
  ~ returns_before_after (Posix.trimCurrentProcessWorkingSet Posix.LinuxGlibc)
      Posix.self_resident
  /\ ~ returns_before_after Windows.trimCurrentProcessWorkingSet win_resident.
Proof.
  split; intros [report H].
  - pose proof (H linux_fixture) as H1. pose proof (H linux_bigger) as H2.
    change (snd (fst (Posix.trimCurrentProcessWorkingSet Posix.LinuxGlibc linux_bigger)))
      with (snd (fst (Posix.trimCurrentProcessWorkingSet Posix.LinuxGlibc linux_fixture)))
      in H2.
    change (snd (Posix.trimCurrentProcessWorkingSet Posix.LinuxGlibc linux_bigger))
      with (snd (Posix.trimCurrentProcessWorkingSet Posix.LinuxGlibc linux_fixture))
      in H2.
    rewrite H1 in H2. vm_compute in H2. discriminate H2.
  - pose proof (H windows_fixture) as H1. pose proof (H windows_bigger) as H2.
    replace (snd (fst (Windows.trimCurrentProcessWorkingSet windows_bigger)))
      with (snd (fst (Windows.trimCurrentProcessWorkingSet windows_fixture)))
      in H2 by (vm_compute; reflexivity).
    change (snd (Windows.trimCurrentProcessWorkingSet windows_bigger))
      with (snd (Windows.trimCurrentProcessWorkingSet windows_fixture))
      in H2.
    rewrite H1 in H2. vm_compute in H2. discriminate H2.
Qed.

(** C2 (amended).  The trimmer is a total function that returns no value.
    On Windows it prints the working set of the current process in KB as
    sampled before and after the request; when the request fails it writes
    one error line to [std::cerr] and the world is unchanged, so both
    samples are still printed (and are equal); when it succeeds it writes
    nothing to [std::cerr].  On the POSIX path it writes nothing to
    [std::cerr]; on Linux with glibc it prints the request line, calls
    [malloc_trim(0)] and prints its result; on the other builds it makes no
    request and prints that no trim is available. *)
Theorem trim_behaviour :
  forall (ww : Windows.world) (t : Posix.target) (pw : Posix.world),
    (let w' := fst (fst (Windows.trimCurrentProcessWorkingSet ww)) in
     snd (fst (Windows.trimCurrentProcessWorkingSet ww))
       = kb_line "Before trim: " (win_resident ww)
         ++ kb_line "After  trim: " (win_resident w')
     /\ (forall e, Windows.trim_outcome ww = inl e ->
           w' = ww /\
           snd (Windows.trimCurrentProcessWorkingSet ww)
             = "SetProcessWorkingSetSize failed, error=" ++ show_Z e ++ nl)
     /\ (forall ws, Windows.trim_outcome ww = inr ws ->
           Windows.GetProcessMemoryInfo w' Windows.GetCurrentProcess = ws /\
           snd (Windows.trimCurrentProcessWorkingSet ww) = EmptyString))
    /\
    (let w' := fst (fst (Posix.trimCurrentProcessWorkingSet t pw)) in
     let out := snd (fst (Posix.trimCurrentProcessWorkingSet t pw)) in
     snd (Posix.trimCurrentProcessWorkingSet t pw) = EmptyString
     /\ match t with
        | Posix.LinuxGlibc =>
            w' = snd (Posix.malloc_trim pw)
            /\ prints ("Requesting malloc_trim (glibc) if available..." ++ nl) out
            /\ prints ("malloc_trim returned "
                       ++ show_Z (fst (Posix.malloc_trim pw)) ++ nl) out
        | Posix.LinuxOther =>
            w' = pw
            /\ prints ("Requesting malloc_trim (glibc) if available..." ++ nl) out
            /\ prints ("malloc_trim not available on this platform." ++ nl) out
        | Posix.OtherPosix =>
            w' = pw
            /\ prints ("No portable trim available on this POSIX platform." ++ nl) out
        end).
Proof.
  intros ww t pw. split.
  - unfold Windows.trimCurrentProcessWorkingSet, Windows.SetProcessWorkingSetSize,
      Windows.GetLastError, win_resident, kb_line.
    destruct (Windows.trim_outcome ww) as [e | ws] eqn:Ho; cbn -[append].
    + rewrite Ho. split; [| split].
      * rewrite ?append_assoc. reflexivity.
      * intros e' [= <-]. split; reflexivity.
      * intros ws [=].
    + split; [| split].
      * rewrite ?append_assoc. reflexivity.
      * intros e [=].
      * intros ws' [= <-]. split; reflexivity.
  - cbv zeta. unfold Posix.trimCurrentProcessWorkingSet.
    destruct (Posix.malloc_trim pw) as [r w1] eqn:Hm.
    destruct t; cbn [fst snd]; (split; [reflexivity |]).
    + split; [reflexivity |]. split.
      * exists EmptyString, ("malloc_trim returned " ++ show_Z r ++ nl). reflexivity.
      * exists ("Requesting malloc_trim (glibc) if available..." ++ nl), EmptyString.
        rewrite append_nil_r. reflexivity.
    + split; [reflexivity |]. split.
      * exists EmptyString, ("malloc_trim not available on this platform." ++ nl).
        reflexivity.
      * exists ("Requesting malloc_trim (glibc) if available..." ++ nl), EmptyString.
        rewrite append_nil_r. reflexivity.
    + split; [reflexivity |].
      exists EmptyString, EmptyString. rewrite append_nil_r. reflexivity.
Qed.

Lemma trim_behaviour_witness :
  Windows.trimCurrentProcessWorkingSet windows_trim_denied
    = (windows_trim_denied,
       "Before trim: 8192 KB" ++ nl ++ "After  trim: 8192 KB" ++ nl,
       "SetProcessWorkingSetSize failed, error=5" ++ nl)
  /\ snd (Windows.trimCurrentProcessWorkingSet windows_fixture) = EmptyString
  /\ snd (Posix.trimCurrentProcessWorkingSet Posix.LinuxGlibc linux_fixture)
     = EmptyString
  /\ prints ("malloc_trim returned 1" ++ nl)
       (snd (fst (Posix.trimCurrentProcessWorkingSet Posix.LinuxGlibc linux_fixture)))
  /\ prints ("No portable trim available on this POSIX platform." ++ nl)
       (snd (fst (Posix.trimCurrentProcessWorkingSet Posix.OtherPosix linux_fixture))).
Proof.
  destruct (trim_behaviour windows_trim_denied Posix.LinuxGlibc linux_fixture)
    as [(Hout & Hfail & _) (Hcerr & _ & _ & Hresult)].
  destruct (trim_behaviour windows_fixture Posix.OtherPosix linux_fixture)
    as [(_ & _ & Hok) (_ & _ & Hnone)].
  destruct (Hfail 5%Z eq_refl) as [Hw Herr].
  destruct (Hok (Some (7 * MB)%N) eq_refl) as [_ Hsilent].
  split; [| split; [exact Hsilent
                   | split; [exact Hcerr | split; [exact Hresult | exact Hnone]]]].
  rewrite (surjective_pairing (Windows.trimCurrentProcessWorkingSet windows_trim_denied)).
  rewrite (surjective_pairing (fst (Windows.trimCurrentProcessWorkingSet windows_trim_denied))).
  rewrite Herr, Hout. cbv zeta in Hw. rewrite Hw. reflexivity.
Defined.

(** ** The entry points *)

Section Paths.

Context {P : Platform}.

Lemma main_list_entry fuel argv0 arg more T (st : io P) :
  stoul ULONG_MAX arg = inr T ->
  main fuel (argv0 :: "list" :: arg :: more) st
  = Returned 0 (main_list T (kill_flag more) st).
Proof.
  intros H. unfold main. cbn [String.eqb Ascii.eqb Bool.eqb].
  rewrite H. reflexivity.
Qed.

Lemma main_list_throws fuel argv0 arg more e (st : io P) :
  stoul ULONG_MAX arg = inl e ->
  main fuel (argv0 :: "list" :: arg :: more) st = Uncaught e st.
Proof.
  intros H. unfold main. cbn [String.eqb Ascii.eqb Bool.eqb].
  rewrite H. reflexivity.
Qed.

Lemma main_list_spec T doKill (st : io P) :
  let procs := listHighMemoryProcesses T (os st) in
  main_list T doKill st =
  mk_io (cin st)
        (cout st
         ++ match procs with [] => none_found_text T | _ :: _ => EmptyString end
         ++ fst (loop_report EmptyString "  Attempting to terminate PID "
                   procs doKill (os st)))
        (cerr st)
        (snd (loop_report EmptyString "  Attempting to terminate PID "
                procs doKill (os st)))
        (calls st ++ CallList T :: loop_calls procs doKill).
Proof.
  cbv zeta. unfold main_list, call_list.
  destruct (listHighMemoryProcesses T (os st)) as [| t rest];
    rewrite main_loop_spec; unfold print; cbn -[append loop_report loop_calls];
    rewrite <- app_assoc, ?append_assoc; reflexivity.
Qed.

Lemma menu_list_spec T doKill (st : io P) :
  let procs := listHighMemoryProcesses T (os st) in
  menu_list T doKill st =
  mk_io (cin st)
        (cout st ++ menu_header T
         ++ fst (loop_report " " "  Intentando terminar PID " procs doKill (os st)))
        (cerr st)
        (snd (loop_report " " "  Intentando terminar PID " procs doKill (os st)))
        (calls st ++ CallList T :: loop_calls procs doKill).
Proof.
  cbv zeta. unfold menu_list, call_list.
  rewrite menu_loop_spec; unfold print; cbn -[append loop_report loop_calls].
  rewrite <- app_assoc, ?append_assoc; reflexivity.
Qed.

(** The menu pass that reads option 2, a threshold and the answer to the
    kill question. *)
Lemma menu_list_entry (st : io P) c1 c2 c3 T ch :
  get_int 0 (cin st) = (c1, 2%Z) -> fail c1 = false ->
  get_unsigned SIZE_MAX 0 c1 = (c2, T) -> fail c2 = false ->
  get_char "n" c2 = (c3, ch) ->
  menu_body st =
  (Continue,
   menu_list T (is_yes ch)
     (mk_io c3 (cout st ++ menu_text ++ threshold_prompt ++ kill_prompt)
        (cerr st) (os st) (calls st))).
Proof.
  intros H1 F1 H2 F2 H3.
  unfold menu_body, print, set_cin. cbn [cin cout cerr os calls].
  rewrite H1, F1. cbn [Z.eqb Pos.eqb orb]. cbn [cin cout cerr os calls].
  rewrite H2, F2. cbn [cin cout cerr os calls]. rewrite H3.
  rewrite !append_assoc. reflexivity.
Qed.

(** The menu pass that reads option 1. *)
Lemma menu_trim_entry (st : io P) c1 :
  get_int 0 (cin st) = (c1, 1%Z) -> fail c1 = false ->
  menu_body st =
  (Continue, call_trim (mk_io c1 (cout st ++ menu_text) (cerr st) (os st) (calls st))).
Proof.
  intros H1 F1.
  unfold menu_body, print, set_cin. cbn [cin cout cerr os calls].
  rewrite H1, F1. reflexivity.
Qed.

Lemma call_trim_spec (st : io P) :
  call_trim st =
  mk_io (cin st)
        (cout st ++ snd (fst (trimCurrentProcessWorkingSet (os st))))
        (cerr st ++ snd (trimCurrentProcessWorkingSet (os st)))
        (fst (fst (trimCurrentProcessWorkingSet (os st))))
        (calls st ++ [CallTrim]).
Proof.
  unfold call_trim.
  destruct (trimCurrentProcessWorkingSet (os st)) as [[w out] err]. reflexivity.
Qed.

End Paths.

(** ** C3: exceptions on the one-shot path *)

(** C3 (the code departs from the claim).  The claim: every one-shot
    invocation, including [list <non-numeric>] and an out-of-range threshold,
    completes without an uncaught exception.  [main] calls [std::stoul] on
    the threshold argument outside any [try] block: [list abc] leaves [main]
    with [std::invalid_argument] on every platform, and a threshold above
    [ULONG_MAX] ([2^64] on the POSIX build, [2^32] on the Windows build)
    leaves it with [std::out_of_range]; nothing is printed and no component
    is called. *)
Theorem list_bad_threshold_uncaught :
  (forall (P : Platform) (fuel : nat) (st : io P),
      main fuel ["prog"; "list"; "abc"] st = Uncaught invalid_argument st)
  /\ (forall (t : Posix.target) (fuel : nat) (st : io (PosixPlatform t)),
        main fuel ["prog"; "list"; "18446744073709551616"] st
        = Uncaught out_of_range st)
  /\ (forall (fuel : nat) (st : io WindowsPlatform),
        main fuel ["prog"; "list"; "4294967296"] st = Uncaught out_of_range st).
Proof.
  split; [| split]; intros; apply main_list_throws; reflexivity.
Qed.

(** Every other one-shot invocation returns: an uncaught exception arises
    only from the threshold argument of [list]. *)
Lemma oneshot_outcome (P : Platform) fuel argv0 cmd args (st : io P) :
  (exists status st', main fuel (argv0 :: cmd :: args) st = Returned status st')
  \/ (exists arg more e, cmd = "list" /\ args = arg :: more
                         /\ stoul ULONG_MAX arg = inl e
                         /\ main fuel (argv0 :: cmd :: args) st = Uncaught e st).
Proof.
  unfold main.
  destruct (String.eqb cmd "trim"); [left; eauto |].
  destruct (String.eqb_spec cmd "list") as [-> | Hne].
  - destruct args as [| arg more].
    + left. cbn. eauto.
    + destruct (stoul ULONG_MAX arg) as [e | T] eqn:Hs.
      * right. exists arg, more, e. auto.
      * left. eauto.
  - left. destruct args; destruct (String.eqb cmd "alt"); eauto.
Qed.

(** ** C7: [list <T> --kill] *)

(** With [--kill], the terminator is called once for each record the
    enumerator returned, in order, and on no other pid. *)
Lemma kill_once_per_listed_record (P : Platform) T (st : io P) :
  calls (main_list T true st) =
  (calls st ++ CallList T
     :: map (fun t => CallTerminate (rec_pid t))
            (listHighMemoryProcesses T (os st)))%list.
Proof. rewrite main_list_spec. reflexivity. Qed.

(** The scenario of the specification: of the three processes of the
    fixture two hold at least 50 MB; [list 50 --kill] calls the terminator
    twice, on these two. *)
Example list_50_kill_scenario :
  exists st',
    main 0 ["prog"; "list"; "50"; "--kill"] (linux_start EmptyString) = Returned 0 st'
    /\ calls st' = [CallList 50; CallTerminate 101; CallTerminate 103]
    /\ cout st' = "PID=101 name=big rssMB=100" ++ nl
                  ++ "  Attempting to terminate PID 101 ... OK" ++ nl
                  ++ "PID=103 name= rssMB=50" ++ nl
                  ++ "  Attempting to terminate PID 103 ... FAILED" ++ nl.
Proof. eexists. split; [reflexivity |]. split; reflexivity. Qed.

(** C7 (the code departs from the claim).  The claim: the terminator is
    never called on a pid whose resident size is below the threshold.  With
    [list 17592186044416 --kill] (T = 2^44) the bound wraps to 0 (the defect
    shown for C1): the terminator is called on all three processes of the
    fixture, among them 102 with 1 MB, which receives SIGTERM.  ([kill_once_per_listed_record] and
    [listed_meets_threshold_in_range] give the claim for T < 2^44.) *)
Theorem kill_at_wrapped_threshold :
  exists st',
    main 0 ["prog"; "list"; "17592186044416"; "--kill"] (linux_start EmptyString)
    = Returned 0 st'
    /\ calls st' = [CallList 17592186044416; CallTerminate 101;
                    CallTerminate 102; CallTerminate 103]
    /\ Posix.signalled (os st') = [101%Z; 102%Z]
    /\ Posix.scan_entry linux_fixture 0 "102" = [mk_record 102 "small" (1 * MB)]
    /\ (1 * MB < 17592186044416 * 1024 * 1024)%N.
Proof.
  eexists. split; [reflexivity |]. repeat split; reflexivity.
Qed.

(** ** C4: the one-shot path and the interactive path *)

(** C4 (fails as stated).  No process of the fixture holds 1000 MB.  Both
    paths call the enumerator once with threshold 1000 and nothing else;
    [list 1000] prints the none-found message, while the menu (option 2,
    threshold 1000, answer n) prints after its prompts only the header that
    precedes every listing, and no message for the empty result. *)
Lemma paths_differ_on_empty_result :
  exists one menu,
    main 0 ["prog"; "list"; "1000"] (linux_start EmptyString) = Returned 0 one
    /\ menu_body (linux_start ("2" ++ nl ++ "1000" ++ nl ++ "n" ++ nl))
       = (Continue, menu)
    /\ calls one = [CallList 1000] /\ calls menu = [CallList 1000]
    /\ cout one = "No processes found using >= 1000 MB" ++ nl
    /\ cout menu = menu_text ++ threshold_prompt ++ kill_prompt
                   ++ "Procesos con >= 1000 MB:" ++ nl
    /\ ~ same_listing_text (PosixPlatform Posix.LinuxGlibc).
Proof.
  do 2 eexists.
  split; [reflexivity |]. split; [reflexivity |].
  repeat (split; [reflexivity |]).
  intros H. specialize (H 1000%N false (linux_start EmptyString)).
  vm_compute in H. discriminate H.
Qed.

(** C4 (amended).  For the same list request (threshold [T], kill or not) in
    the same state, [main] with [list <T> [--kill]] and a menu pass reading
    option 2, [T] and the answer make the same component calls in the same
    order (the enumerator once with [T], then the terminator once per
    returned record when killing) and leave the same world; both print, per
    record, its pid, name and resident MB and, when killing, the same OK or
    FAILED outcome.  The texts differ: the menu prints its prompts and the
    header "Procesos con >= T MB:" and words its lines in Spanish with a
    leading space, and prints nothing more for an empty result; the one-shot
    path prints "No processes found using >= T MB" for an empty result.  For
    a trim request, [main] with [trim] and a menu pass reading option 1 both
    call the trimmer once, leave the same world and print its text, the menu
    after the menu text. *)
Theorem paths_agree_on_calls :
  forall (P : Platform) (fuel : nat) (argv0 arg : string) (more : list string)
         (st st1 : io P) (c1 c2 c3 d1 : istream) (T : N) (ch : ascii),
    (stoul ULONG_MAX arg = inr T ->
     get_int 0 (cin st) = (c1, 2%Z) -> fail c1 = false ->
     get_unsigned SIZE_MAX 0 c1 = (c2, T) -> fail c2 = false ->
     get_char "n" c2 = (c3, ch) ->
     is_yes ch = kill_flag more ->
     let procs := listHighMemoryProcesses T (os st) in
     let doKill := kill_flag more in
     exists one menu,
       main fuel (argv0 :: "list" :: arg :: more) st = Returned 0 one
       /\ menu_body st = (Continue, menu)
       /\ calls one = (calls st ++ CallList T :: loop_calls procs doKill)%list
       /\ calls menu = calls one
       /\ os menu = os one
       /\ cerr menu = cerr one
       /\ cout one =
            cout st
            ++ match procs with [] => none_found_text T | _ :: _ => EmptyString end
            ++ fst (loop_report EmptyString "  Attempting to terminate PID "
                      procs doKill (os st))
       /\ cout menu =
            cout st ++ menu_text ++ threshold_prompt ++ kill_prompt
            ++ menu_header T
            ++ fst (loop_report " " "  Intentando terminar PID " procs doKill (os st)))
    /\
    (get_int 0 (cin st1) = (d1, 1%Z) -> fail d1 = false ->
     let text := snd (fst (trimCurrentProcessWorkingSet (os st1))) in
     exists one menu,
       main fuel [argv0; "trim"] st1 = Returned 0 one
       /\ menu_body st1 = (Continue, menu)
       /\ calls one = (calls st1 ++ [CallTrim])%list
       /\ calls menu = calls one
       /\ os menu = os one
       /\ cerr menu = cerr one
       /\ cout one = cout st1 ++ text
       /\ cout menu = cout st1 ++ menu_text ++ text).
Proof.
  intros P fuel argv0 arg more st st1 c1 c2 c3 d1 T ch. split.
  - intros Hs H1 F1 H2 F2 H3 Hk. cbv zeta.
    rewrite (main_list_entry fuel argv0 arg more T st Hs).
    rewrite (menu_list_entry st c1 c2 c3 T ch H1 F1 H2 F2 H3), Hk.
    do 2 eexists. split; [reflexivity |]. split; [reflexivity |].
    rewrite main_list_spec, menu_list_spec. cbn [cin cout cerr os calls].
    split; [reflexivity |]. split; [reflexivity |].
    split; [apply loop_report_world |]. split; [reflexivity |].
    split; [reflexivity |].
    rewrite !append_assoc. reflexivity.
  - intros H1 F1. cbv zeta.
    rewrite (menu_trim_entry st1 d1 H1 F1).
    do 2 eexists. split; [reflexivity |]. split; [reflexivity |].
    rewrite !call_trim_spec. cbn [cin cout cerr os calls].
    repeat (split; [reflexivity |]).
    rewrite append_assoc. reflexivity.
Qed.

Lemma paths_agree_on_calls_witness :
  (exists one menu,
     main 0 ["prog"; "list"; "50"; "--kill"]
       (linux_start ("2" ++ nl ++ "50" ++ nl ++ "s" ++ nl)) = Returned 0 one
     /\ menu_body (linux_start ("2" ++ nl ++ "50" ++ nl ++ "s" ++ nl)) = (Continue, menu)
     /\ calls one = [CallList 50; CallTerminate 101; CallTerminate 103]
     /\ calls menu = calls one
     /\ os menu = os one)
  /\
  (exists one menu,
     main 0 ["prog"; "trim"] (linux_start ("1" ++ nl)) = Returned 0 one
     /\ menu_body (linux_start ("1" ++ nl)) = (Continue, menu)
     /\ calls one = [CallTrim]
     /\ calls menu = calls one
     /\ os menu = os one).
Proof.
  destruct (paths_agree_on_calls (PosixPlatform Posix.LinuxGlibc) 0 "prog" "50" ["--kill"]
              (linux_start ("2" ++ nl ++ "50" ++ nl ++ "s" ++ nl))
              (linux_start ("1" ++ nl))
              (stream_of (nl ++ "50" ++ nl ++ "s" ++ nl))
              (stream_of (nl ++ "s" ++ nl))
              (stream_of nl)
              (stream_of nl)
              50%N "s"%char) as [Hlist Htrim].
  split.
  - destruct Hlist as (one & menu & Hone & Hmenu & Hc & Hcm & Hos & _);
      try reflexivity.
    exists one, menu. repeat (split; [assumption |]). assumption.
  - destruct Htrim as (one & menu & Hone & Hmenu & Hc & Hcm & Hos & _);
      try reflexivity.
    exists one, menu. repeat (split; [assumption |]). assumption.
Defined.

(** ** C8: a threshold that is not a number *)

Lemma skipws_app pre s :
  skipws pre = EmptyString -> skipws (pre ++ s) = skipws s.
Proof.
  induction pre as [| x pre IH]; simpl; [reflexivity |].
  destruct (isspace x); [exact IH | discriminate].
Qed.

Lemma split_line_app l rest :
  no_newline l = true -> split_line (l ++ nl ++ rest) = (l, rest, true).
Proof.
  induction l as [| x l IH]; simpl; [reflexivity |].
  intros H. apply andb_prop in H. destruct H as [Hx Hl].
  apply negb_true_iff in Hx. rewrite Hx.
  change (String "010" rest) with (nl ++ rest). rewrite (IH Hl). reflexivity.
Qed.

(** A token whose first character is neither white space, a digit nor a
    sign does not start with a number. *)
Lemma no_number_at_letter pre c tail :
  skipws pre = EmptyString ->
  isspace c = false -> isdigit c = false ->
  Ascii.eqb c "-" = false -> Ascii.eqb c "+" = false ->
  scan_number (skipws (pre ++ String c tail)) = (None, String c tail).
Proof.
  intros Hpre Hs Hd Hm Hp.
  rewrite (skipws_app _ _ Hpre). cbn [skipws]. rewrite Hs.
  unfold scan_number. rewrite Hm, Hp, Hd. reflexivity.
Qed.

(** When the input does not start (after white space) with a number, and is
    not at its end, nothing is converted: [failbit] is set, 0 is stored, and
    the stream keeps what follows the optional sign. *)
Lemma get_unsigned_no_number max old b r :
  scan_number (skipws b) = (None, r) -> is_empty r = false ->
  get_unsigned max old (stream_of b) = (mk_istream r true false, 0%N).
Proof.
  intros Hscan Hr.
  unfold get_unsigned, sentry, stream_of, good. cbn [buf failbit eofbit negb andb].
  destruct (skipws b) as [| c t] eqn:Hb.
  - cbn in Hscan. injection Hscan as <-. discriminate Hr.
  - cbn [buf]. rewrite Hscan, Hr. reflexivity.
Qed.

(** [cin.clear()] and [getline] then discard the rest of the line. *)
Lemma discard_line l rest :
  no_newline l = true ->
  getline EmptyString (clear (mk_istream (l ++ nl ++ rest) true false))
  = (stream_of rest, l).
Proof.
  intros Hl.
  unfold getline, clear, sentry, good. cbn [buf failbit eofbit negb andb].
  rewrite (split_line_app l rest Hl). reflexivity.
Qed.

Lemma is_empty_line l rest : is_empty (l ++ nl ++ rest) = false.
Proof. destruct l; reflexivity. Qed.

(** C8 (fails as stated).  "50s" and "12abc" are not numbers, yet at the
    threshold prompt they are not rejected.  With "50s" the pass reads the
    threshold 50 and takes "s" as the answer to the kill question: it prints
    no error message, calls the enumerator and then the terminator on both
    listed processes.  With "12abc" it lists at threshold 12, takes "a" as
    the answer and leaves "bc" unread for the next pass. *)
Lemma non_numeric_threshold_accepted :
  (all_digits "50s" = false
   /\ exists st',
        menu_body (linux_start ("2" ++ nl ++ "50s" ++ nl)) = (Continue, st')
        /\ calls st' = [CallList 50; CallTerminate 101; CallTerminate 103]
        /\ Posix.signalled (os st') = [101%Z]
        /\ cout st' = menu_text ++ threshold_prompt ++ kill_prompt
                      ++ "Procesos con >= 50 MB:" ++ nl
                      ++ " PID=101 name=big rssMB=100" ++ nl
                      ++ "  Intentando terminar PID 101 ... OK" ++ nl
                      ++ " PID=103 name= rssMB=50" ++ nl
                      ++ "  Intentando terminar PID 103 ... FAILED" ++ nl)
  /\
  (all_digits "12abc" = false
   /\ exists st',
        menu_body (linux_start ("2" ++ nl ++ "12abc" ++ nl)) = (Continue, st')
        /\ calls st' = [CallList 12]
        /\ cin st' = stream_of ("bc" ++ nl)).
Proof.
  split; (split; [reflexivity |]); eexists; (split; [reflexivity |]);
    repeat split; reflexivity.
Qed.

(** C8 (amended).  In the interactive menu, after option 2 or 3, a threshold
    line that does not start with a number (after white space and an
    optional sign; for instance "abc") prints the error message and ends the
    pass with [continue]: the enumerator is not called (option 3 has called
    the trimmer before the prompt, option 2 nothing), and the state the
    next pass starts from is the state before the prompt with [std::cin] in
    the good state at the start of the next line and the two texts appended
    to [std::cout].  Here [b] is the input left after the option was read,
    [l] the rest of the offending line and [rest] the lines after it. *)
Theorem invalid_threshold_returns_to_menu :
  forall (P : Platform) (st : io P) (opt : Z) (b l rest : string),
    get_int 0 (cin st) = (stream_of b, opt) ->
    opt = 2%Z \/ opt = 3%Z ->
    scan_number (skipws b) = (None, l ++ nl ++ rest) ->
    no_newline l = true ->
    let before :=
      if (opt =? 3)%Z then call_trim (print menu_text st) else print menu_text st in
    let after :=
      mk_io (stream_of rest)
            (cout before ++ threshold_prompt ++ invalid_threshold_text)
            (cerr before) (os before) (calls before) in
    menu_body st = (Continue, after)
    /\ calls after = (calls st ++ if (opt =? 3)%Z then [CallTrim] else [])%list
    /\ (opt = 2%Z -> os after = os st /\ cerr after = cerr st)
    /\ (forall fuel, runInteractiveMenu (S fuel) st = runInteractiveMenu fuel after).
Proof.
  intros P st opt b l rest Hopt Hcase Hscan Hl before after.
  pose proof (get_unsigned_no_number SIZE_MAX 0 b _ Hscan (is_empty_line l rest)) as Hget.
  assert (Hbody : menu_body st = (Continue, after)).
  { unfold menu_body, print, set_cin. cbn [cin cout cerr os calls].
    rewrite Hopt. cbn [fail failbit stream_of].
    change (mk_istream b false false) with (stream_of b).
    subst before after.
    destruct Hcase as [-> | ->]; cbn [Z.eqb Pos.eqb orb].
    - cbn [cin cout cerr os calls].
      rewrite Hget. cbn [fail failbit]. rewrite (discard_line l rest Hl).
      unfold print. cbn [cin cout cerr os calls].
      rewrite append_assoc. reflexivity.
    - rewrite !call_trim_spec. cbn [cin cout cerr os calls].
      rewrite Hget. cbn [fail failbit]. rewrite (discard_line l rest Hl).
      unfold print. cbn [cin cout cerr os calls].
      rewrite !append_assoc. reflexivity. }
  split; [exact Hbody |].
  split; [| split].
  - subst before after. cbn [calls].
    destruct Hcase as [-> | ->]; cbn [Z.eqb Pos.eqb].
    + unfold print. cbn [calls]. rewrite app_nil_r. reflexivity.
    + rewrite call_trim_spec. reflexivity.
  - intros ->. subst before after. split; reflexivity.
  - intros fuel. cbn [runInteractiveMenu]. rewrite Hbody. reflexivity.
Qed.

Lemma invalid_threshold_returns_to_menu_witness :
  let st := linux_start ("2" ++ nl ++ "abc" ++ nl ++ "4" ++ nl) in
  let after :=
    @mk_io (PosixPlatform Posix.LinuxGlibc) (stream_of ("4" ++ nl))
      (menu_text ++ threshold_prompt ++ invalid_threshold_text)
      EmptyString linux_fixture [] in
  menu_body st = (Continue, after)
  /\ calls after = []
  /\ runInteractiveMenu 2 st = runInteractiveMenu 1 after.
Proof.
  cbv zeta.
  destruct (invalid_threshold_returns_to_menu (PosixPlatform Posix.LinuxGlibc)
              (linux_start ("2" ++ nl ++ "abc" ++ nl ++ "4" ++ nl))
              2%Z (nl ++ "abc" ++ nl ++ "4" ++ nl) "abc" ("4" ++ nl))
    as (Hbody & Hcalls & _ & Hloop);
    try reflexivity; [left; reflexivity |].
  split; [exact Hbody |]. split; [exact Hcalls | exact (Hloop 1%nat)].
Defined.

(** The whole run: the failed attempt is followed by option 4, and the
    program returns 0 without having called any component. *)
Example invalid_threshold_then_exit :
  exists st',
    main 2 ["prog"] (linux_start ("2" ++ nl ++ "abc" ++ nl ++ "4" ++ nl)) = Returned 0 st'
    /\ calls st' = []
    /\ os st' = linux_fixture
    /\ cout st' = menu_text ++ threshold_prompt ++ invalid_threshold_text ++ menu_text.
Proof. eexists. split; [reflexivity |]. repeat split; reflexivity. Qed.

(** * Further properties of the code *)

(** ** Decimal text: what [operator<<] writes, the scanners read back *)

Lemma read_digits_stop rest acc :
  starts_with_digit rest = false -> read_digits rest acc = (acc, rest).
Proof.
  destruct rest as [| c r]; [reflexivity |]. cbn. intros ->. reflexivity.
Qed.

Lemma read_digits_acc d rest p :
  starts_with_digit rest = false ->
  read_digits (NilEmpty.string_of_uint d ++ rest) (Npos p)
  = (Npos (Pos.of_uint_acc d p), rest).
Proof.
  intros Hr. revert p.
  induction d as [| d IH | d IH | d IH | d IH | d IH | d IH | d IH | d IH | d IH | d IH];
    intros p; cbn [NilEmpty.string_of_uint append read_digits Pos.of_uint_acc];
    [apply read_digits_stop, Hr | ..];
    change (isdigit _) with true; cbn match;
    rewrite <- IH; f_equal;
    match goal with
    | |- context [digit_val ?c] =>
        let v := eval vm_compute in (digit_val c) in change (digit_val c) with v
    end; lia.
Qed.

Lemma read_digits_uint d rest :
  starts_with_digit rest = false ->
  read_digits (NilEmpty.string_of_uint d ++ rest) 0 = (N.of_uint d, rest).
Proof.
  intros Hr.
  induction d as [| d IH | d IH | d IH | d IH | d IH | d IH | d IH | d IH | d IH | d IH];
    cbn [NilEmpty.string_of_uint append read_digits];
    [apply read_digits_stop, Hr | ..];
    change (isdigit _) with true; cbn match;
    [exact IH | ..];
    unfold N.of_uint; cbn [Pos.of_uint]; rewrite <- read_digits_acc by exact Hr;
    reflexivity.
Qed.

Lemma show_N_digits n : show_N n = NilEmpty.string_of_uint (N.to_uint n).
Proof.
  unfold show_N, NilZero.string_of_uint.
  destruct n as [| p]; [reflexivity |].
  cbn [N.to_uint]. destruct (Pos.to_uint p) eqn:E; try reflexivity.
  exfalso. exact (DecimalPos.Unsigned.to_uint_nonnil p E).
Qed.

Lemma read_digits_show n rest :
  starts_with_digit rest = false ->
  read_digits (show_N n ++ rest) 0 = (n, rest).
Proof.
  intros Hr. rewrite show_N_digits, read_digits_uint by exact Hr.
  rewrite DecimalN.Unsigned.of_to. reflexivity.
Qed.

Lemma show_N_starts n rest :
  exists c t, show_N n ++ rest = String c t /\ isdigit c = true.
Proof.
  rewrite show_N_digits.
  destruct n as [| p]; [cbn; eauto |].
  cbn [N.to_uint]. pose proof (DecimalPos.Unsigned.to_uint_nonnil p) as Hn.
  destruct (Pos.to_uint p); [congruence | ..]; cbn; eauto.
Qed.

Lemma digit_not_space c : isdigit c = true -> isspace c = false.
Proof.
  unfold isdigit, isspace. set (n := nat_of_ascii c).
  destruct (Nat.leb_spec 48 n), (Nat.leb_spec n 57), (Nat.eqb_spec n 32),
    (Nat.leb_spec 9 n), (Nat.leb_spec n 13); simpl;
    try reflexivity; try discriminate; lia.
Qed.

Lemma digit_not_sign c :
  isdigit c = true -> Ascii.eqb c "-" = false /\ Ascii.eqb c "+" = false.
Proof.
  intros Hc. split.
  - destruct (Ascii.eqb_spec c "-") as [-> |]; [discriminate Hc | reflexivity].
  - destruct (Ascii.eqb_spec c "+") as [-> |]; [discriminate Hc | reflexivity].
Qed.

Lemma skipws_show n rest : skipws (show_N n ++ rest) = show_N n ++ rest.
Proof.
  destruct (show_N_starts n rest) as (c & t & E & Hc).
  rewrite E. cbn [skipws]. rewrite (digit_not_space c Hc). reflexivity.
Qed.

(** A decimal number is scanned back to its value, up to the first
    character that is not a digit. *)
Lemma scan_number_show n rest :
  starts_with_digit rest = false ->
  scan_number (show_N n ++ rest) = (Some (false, n), rest).
Proof.
  intros Hr. destruct (show_N_starts n rest) as (c & t & E & Hc).
  destruct (digit_not_sign c Hc) as [Hm Hp].
  unfold scan_number.
  rewrite E, Hm, Hp, Hc, <- E, read_digits_show by exact Hr. reflexivity.
Qed.

Lemma scan_number_minus_show n rest :
  starts_with_digit rest = false ->
  scan_number ("-" ++ show_N n ++ rest) = (Some (true, n), rest).
Proof.
  intros Hr. destruct (show_N_starts n rest) as (c & t & E & Hc).
  unfold scan_number. cbn [append Ascii.eqb Bool.eqb].
  rewrite E, Hc, <- E, read_digits_show by exact Hr. reflexivity.
Qed.

Lemma skipws_prefix pre s :
  skipws pre = EmptyString -> skipws (pre ++ s) = skipws s.
Proof.
  induction pre as [| x pre IH]; simpl; [reflexivity |].
  destruct (isspace x); [exact IH | discriminate].
Qed.

Lemma stoul_show M pre n rest :
  skipws pre = EmptyString -> starts_with_digit rest = false -> (n <= M)%N ->
  stoul M (pre ++ show_N n ++ rest) = inr n.
Proof.
  intros Hpre Hr Hn. unfold stoul.
  rewrite (skipws_prefix _ _ Hpre), skipws_show, (scan_number_show n rest Hr).
  rewrite (proj2 (N.ltb_ge M n) Hn). reflexivity.
Qed.

Lemma stoul_minus_show M pre n rest :
  skipws pre = EmptyString -> starts_with_digit rest = false -> (n <= M)%N ->
  stoul M (pre ++ "-" ++ show_N n ++ rest) = inr ((M + 1 - n) mod (M + 1))%N.
Proof.
  intros Hpre Hr Hn. unfold stoul.
  rewrite (skipws_prefix _ _ Hpre).
  change (skipws ("-" ++ show_N n ++ rest)) with ("-" ++ show_N n ++ rest).
  rewrite (scan_number_minus_show n rest Hr).
  rewrite (proj2 (N.ltb_ge M n) Hn). reflexivity.
Qed.


(** ** The threshold argument of the one-shot [list] command *)

(** X1.  [list <arg>] takes as threshold the decimal number at the start of
    the argument (after optional white space), whatever follows it: for
    every T up to [ULONG_MAX], an argument made of the decimal text of T
    followed by text that does not start with a digit (for instance "50MB")
    runs the listing with threshold T and returns 0. *)
Theorem list_accepts_decimal_prefix :
  forall (P : Platform) (fuel : nat) (argv0 pre rest : string) (T : N)
         (more : list string) (st : io P),
    skipws pre = EmptyString ->
    starts_with_digit rest = false ->
    (T <= ULONG_MAX)%N ->
    main fuel (argv0 :: "list" :: (pre ++ show_N T ++ rest) :: more) st
    = Returned 0 (main_list T (kill_flag more) st).
Proof.
  intros P fuel argv0 pre rest T more st Hpre Hr HT.
  apply main_list_entry, stoul_show; assumption.
Qed.

Lemma list_accepts_decimal_prefix_witness :
  main 0 ["prog"; "list"; " 50MB"] (linux_start EmptyString)
  = Returned 0 (main_list 50 false (linux_start EmptyString)).
Proof.
  apply (list_accepts_decimal_prefix (PosixPlatform Posix.LinuxGlibc) 0 "prog"
           " " "MB" 50%N [] (linux_start EmptyString));
    [reflexivity | reflexivity | vm_compute; discriminate].
Defined.

(** X2.  A negative threshold argument is not rejected: [list -n], for n up
    to [ULONG_MAX], runs the listing with the threshold negated in the
    unsigned type, [(ULONG_MAX + 1 - n) mod (ULONG_MAX + 1)], and returns
    0. *)
Theorem list_negative_threshold_wraps :
  forall (P : Platform) (fuel : nat) (argv0 pre rest : string) (n : N)
         (more : list string) (st : io P),
    skipws pre = EmptyString ->
    starts_with_digit rest = false ->
    (n <= ULONG_MAX)%N ->
    main fuel (argv0 :: "list" :: (pre ++ "-" ++ show_N n ++ rest) :: more) st
    = Returned 0
        (main_list ((ULONG_MAX + 1 - n) mod (ULONG_MAX + 1))%N (kill_flag more) st).
Proof.
  intros P fuel argv0 pre rest n more st Hpre Hr Hn.
  apply main_list_entry, stoul_minus_show; assumption.
Qed.

Lemma list_negative_threshold_wraps_witness :
  main 0 ["prog"; "list"; "-1"] (linux_start EmptyString)
  = Returned 0 (main_list 18446744073709551615 false (linux_start EmptyString)).
Proof.
  apply (list_negative_threshold_wraps (PosixPlatform Posix.LinuxGlibc) 0 "prog"
           EmptyString EmptyString 1%N [] (linux_start EmptyString));
    [reflexivity | reflexivity | vm_compute; discriminate].
Defined.



(** ** Stream extraction of decimal text *)

Lemma get_unsigned_show max old pre n rest :
  skipws pre = EmptyString -> starts_with_digit rest = false -> (n <= max)%N ->
  get_unsigned max old (stream_of (pre ++ show_N n ++ rest))
  = (mk_istream rest false (is_empty rest), n).
Proof.
  intros Hpre Hr Hn.
  unfold get_unsigned, sentry, stream_of, good. cbn [buf failbit eofbit negb andb].
  rewrite (skipws_prefix _ _ Hpre), skipws_show.
  destruct (show_N_starts n rest) as (c & t & E & _).
  rewrite E. cbn [buf]. rewrite <- E, (scan_number_show n rest Hr).
  rewrite (proj2 (N.ltb_ge max n) Hn). reflexivity.
Qed.

Lemma get_unsigned_show_overflow max old pre n rest :
  skipws pre = EmptyString -> starts_with_digit rest = false -> (max < n)%N ->
  get_unsigned max old (stream_of (pre ++ show_N n ++ rest))
  = (mk_istream rest true (is_empty rest), max).
Proof.
  intros Hpre Hr Hn.
  unfold get_unsigned, sentry, stream_of, good. cbn [buf failbit eofbit negb andb].
  rewrite (skipws_prefix _ _ Hpre), skipws_show.
  destruct (show_N_starts n rest) as (c & t & E & _).
  rewrite E. cbn [buf]. rewrite <- E, (scan_number_show n rest Hr).
  rewrite (proj2 (N.ltb_lt max n) Hn). reflexivity.
Qed.

Lemma get_int_show old pre n rest :
  skipws pre = EmptyString -> starts_with_digit rest = false ->
  (Z.of_N n <= INT_MAX)%Z ->
  get_int old (stream_of (pre ++ show_N n ++ rest))
  = (mk_istream rest false (is_empty rest), Z.of_N n).
Proof.
  intros Hpre Hr Hn.
  unfold get_int, sentry, stream_of, good. cbn [buf failbit eofbit negb andb].
  rewrite (skipws_prefix _ _ Hpre), skipws_show.
  destruct (show_N_starts n rest) as (c & t & E & _).
  rewrite E. cbn [buf]. rewrite <- E, (scan_number_show n rest Hr).
  destruct (Z.gtb_spec (Z.of_N n) INT_MAX); [lia | reflexivity].
Qed.

Lemma get_int_no_number old b r :
  scan_number (skipws b) = (None, r) -> is_empty r = false ->
  get_int old (stream_of b) = (mk_istream r true false, 0%Z).
Proof.
  intros Hscan Hr.
  unfold get_int, sentry, stream_of, good. cbn [buf failbit eofbit negb andb].
  destruct (skipws b) as [| c t] eqn:Hb.
  - cbn in Hscan. injection Hscan as <-. discriminate Hr.
  - cbn [buf]. rewrite Hscan, Hr. reflexivity.
Qed.

(** [clear] followed by [getline] drops the rest of the line, whatever the
    flags were. *)
Lemma clear_discards_line l rest f e :
  no_newline l = true ->
  getline EmptyString (clear (mk_istream (l ++ nl ++ rest) f e))
  = (stream_of rest, l).
Proof.
  intros Hl.
  unfold getline, clear, sentry, good. cbn [buf failbit eofbit negb andb].
  rewrite (split_line_app l rest Hl). reflexivity.
Qed.

Lemma space_not_digit s : skipws s = EmptyString -> starts_with_digit s = false.
Proof.
  destruct s as [| c t]; [reflexivity |]. cbn.
  destruct (isspace c) eqn:Hs; [| discriminate].
  intros _. destruct (isdigit c) eqn:Hd; [| reflexivity].
  rewrite (digit_not_space c Hd) in Hs. discriminate Hs.
Qed.

(** ** One-shot commands other than [list] *)

(** X4.  A command that is none of [trim], [list <arg>], [alt] - an unknown
    word, or [list] without a threshold - prints the usage text with the
    program name and returns 1; no component is called and the world is left
    as it was. *)
Theorem unknown_command_prints_usage :
  forall (P : Platform) (fuel : nat) (argv0 cmd : string) (args : list string)
         (st : io P),
    cmd <> "trim" -> cmd <> "alt" -> (cmd <> "list" \/ args = []) ->
    main fuel (argv0 :: cmd :: args) st
    = Returned 1
        (mk_io (cin st) (cout st ++ usage_text argv0) (cerr st) (os st) (calls st)).
Proof.
  intros P fuel argv0 cmd args st Htrim Halt Hlist. unfold main.
  destruct (String.eqb_spec cmd "trim") as [E | _]; [contradiction |].
  destruct (String.eqb_spec cmd "alt") as [E | _]; [contradiction |].
  destruct (String.eqb_spec cmd "list") as [E | _].
  - destruct Hlist as [Hne | ->]; [contradiction | reflexivity].
  - destruct args; reflexivity.
Qed.

Lemma unknown_command_prints_usage_witness :
  main 0 ["prog"; "foo"] (linux_start EmptyString)
    = Returned 1
        (@mk_io (PosixPlatform Posix.LinuxGlibc) (stream_of EmptyString)
           (usage_text "prog") EmptyString linux_fixture [])
  /\ main 0 ["prog"; "list"] (linux_start EmptyString)
     = Returned 1
         (@mk_io (PosixPlatform Posix.LinuxGlibc) (stream_of EmptyString)
            (usage_text "prog") EmptyString linux_fixture []).
Proof.
  split.
  - apply (unknown_command_prints_usage (PosixPlatform Posix.LinuxGlibc) 0
             "prog" "foo" [] (linux_start EmptyString));
      [discriminate | discriminate | left; discriminate].
  - apply (unknown_command_prints_usage (PosixPlatform Posix.LinuxGlibc) 0
             "prog" "list" [] (linux_start EmptyString));
      [discriminate | discriminate | right; reflexivity].
Defined.

(** X5.  [alt] is [trim] between two messages: both return 0, ignore any
    further arguments, call the trimmer once and leave the same world and
    the same [std::cerr]; [alt] prints the trimmer's text between its
    opening and closing lines. *)
Theorem alt_is_framed_trim :
  forall (P : Platform) (fuel : nat) (argv0 : string) (args : list string)
         (st : io P),
    exists a t,
      main fuel (argv0 :: "alt" :: args) st = Returned 0 a
      /\ main fuel (argv0 :: "trim" :: args) st = Returned 0 t
      /\ os a = os t /\ cerr a = cerr t /\ cin a = cin t
      /\ calls a = (calls st ++ [CallTrim])%list
      /\ calls t = (calls st ++ [CallTrim])%list
      /\ cout a = cout st
                  ++ "Alternate main: trimming current process working set..." ++ nl
                  ++ snd (fst (trimCurrentProcessWorkingSet (os st)))
                  ++ "Done. Use the program with arguments to list/kill processes."
                  ++ nl
      /\ cout t = cout st ++ snd (fst (trimCurrentProcessWorkingSet (os st))).
Proof.
  intros P fuel argv0 args st.
  exists (alternate_main st), (call_trim st).
  split; [destruct args; reflexivity |].
  split; [reflexivity |].
  unfold alternate_main. rewrite !call_trim_spec.
  unfold print. cbn [cin cout cerr os calls].
  repeat (split; [reflexivity |]).
  split; [| reflexivity].
  rewrite !append_assoc. reflexivity.
Qed.

(** ** Listing without killing, and empty listings *)

Lemma loop_report_nokill (P : Platform) indent attempt procs (w : world) :
  snd (loop_report indent attempt procs false w) = w.
Proof.
  induction procs as [| t rest IH]; [reflexivity |].
  cbn [loop_report]. destruct (loop_report indent attempt rest false w). exact IH.
Qed.

(** X6.  Unless the fourth argument is exactly [--kill], [list <T>] only
    reads: it calls the enumerator once and the terminator never, and leaves
    the world and [std::cerr] as they were. *)
Theorem list_without_kill_only_reads :
  forall (P : Platform) (fuel : nat) (argv0 arg : string) (more : list string)
         (T : N) (st : io P),
    stoul ULONG_MAX arg = inr T ->
    kill_flag more = false ->
    exists st',
      main fuel (argv0 :: "list" :: arg :: more) st = Returned 0 st'
      /\ os st' = os st
      /\ calls st' = (calls st ++ [CallList T])%list
      /\ cerr st' = cerr st.
Proof.
  intros P fuel argv0 arg more T st Hs Hk.
  rewrite (main_list_entry fuel argv0 arg more T st Hs), Hk.
  eexists. split; [reflexivity |].
  rewrite main_list_spec. cbn [cin cout cerr os calls].
  split; [apply loop_report_nokill |]. split; reflexivity.
Qed.

Lemma list_without_kill_only_reads_witness :
  exists st',
    main 0 ["prog"; "list"; "50"; "-kill"; "--kill"] (linux_start EmptyString)
    = Returned 0 st'
    /\ os st' = linux_fixture
    /\ calls st' = [CallList 50]
    /\ cerr st' = EmptyString.
Proof.
  apply (list_without_kill_only_reads (PosixPlatform Posix.LinuxGlibc) 0 "prog" "50"
           ["-kill"; "--kill"] 50%N (linux_start EmptyString));
    reflexivity.
Defined.

(** X7.  When the enumerator returns nothing - no process meets the
    threshold, the snapshot or [/proc] cannot be opened, or the build is a
    POSIX system other than Linux, where it always returns nothing -
    [list <T>], with or without [--kill], prints only the none-found message
    and returns 0; the terminator is not called and the world is left as it
    was. *)
Theorem empty_listing_prints_none_found :
  forall (P : Platform) (fuel : nat) (argv0 arg : string) (more : list string)
         (T : N) (st : io P) (so : io (PosixPlatform Posix.OtherPosix)),
    (stoul ULONG_MAX arg = inr T ->
     listHighMemoryProcesses T (os st) = [] ->
     main fuel (argv0 :: "list" :: arg :: more) st
     = Returned 0
         (mk_io (cin st) (cout st ++ none_found_text T) (cerr st) (os st)
            (calls st ++ [CallList T])))
    /\
    (stoul (2 ^ 64 - 1) arg = inr T ->
     main fuel (argv0 :: "list" :: arg :: more) so
     = Returned 0
         (mk_io (cin so) (cout so ++ none_found_text T) (cerr so) (os so)
            (calls so ++ [CallList T]))).
Proof.
  intros P fuel argv0 arg more T st so.
  assert (Hgen : forall (Q : Platform) (s : io Q),
             @stoul (@ULONG_MAX Q) arg = inr T ->
             listHighMemoryProcesses T (os s) = [] ->
             main fuel (argv0 :: "list" :: arg :: more) s
             = Returned 0
                 (mk_io (cin s) (cout s ++ none_found_text T) (cerr s) (os s)
                    (calls s ++ [CallList T]))).
  { intros Q s Hs He.
    rewrite (main_list_entry fuel argv0 arg more T s Hs).
    unfold main_list, call_list. rewrite He. reflexivity. }
  split.
  - apply Hgen.
  - intros Hs. apply Hgen; [exact Hs | reflexivity].
Qed.

Lemma empty_listing_prints_none_found_witness :
  main 0 ["prog"; "list"; "1000"; "--kill"] (linux_start EmptyString)
  = Returned 0
      (@mk_io (PosixPlatform Posix.LinuxGlibc) (stream_of EmptyString)
         ("No processes found using >= 1000 MB" ++ nl) EmptyString linux_fixture
         [CallList 1000])
  /\ main 0 ["prog"; "list"; "0"; "--kill"]
       (@mk_io (PosixPlatform Posix.OtherPosix) (stream_of EmptyString)
          EmptyString EmptyString linux_fixture [])
     = Returned 0
         (@mk_io (PosixPlatform Posix.OtherPosix) (stream_of EmptyString)
            ("No processes found using >= 0 MB" ++ nl) EmptyString linux_fixture
            [CallList 0]).
Proof.
  split.
  - apply (proj1 (empty_listing_prints_none_found (PosixPlatform Posix.LinuxGlibc) 0
                    "prog" "1000" ["--kill"] 1000%N (linux_start EmptyString)
                    (@mk_io (PosixPlatform Posix.OtherPosix) (stream_of EmptyString)
                       EmptyString EmptyString linux_fixture [])));
      reflexivity.
  - apply (proj2 (empty_listing_prints_none_found (PosixPlatform Posix.LinuxGlibc) 0
                    "prog" "0" ["--kill"] 0%N (linux_start EmptyString)
                    (@mk_io (PosixPlatform Posix.OtherPosix) (stream_of EmptyString)
                       EmptyString EmptyString linux_fixture [])));
      reflexivity.
Defined.

(** ** The interactive menu *)

Lemma is_empty_before_char sep ch rest : is_empty (sep ++ String ch rest) = false.
Proof. destruct sep; reflexivity. Qed.

Lemma get_char_next old sep ch rest :
  skipws sep = EmptyString -> isspace ch = false ->
  get_char old (stream_of (sep ++ String ch rest)) = (stream_of rest, ch).
Proof.
  intros Hsep Hch.
  unfold get_char, sentry, stream_of, good. cbn [buf failbit eofbit negb andb].
  rewrite (skipws_prefix _ _ Hsep). cbn [skipws]. rewrite Hch. reflexivity.
Qed.

(** At the end of the input (only white space left) [std::cin >> killch]
    leaves [killch] as it was. *)
Lemma get_char_at_end old sep e :
  skipws sep = EmptyString -> e = is_empty sep ->
  get_char old (mk_istream sep false e) = (mk_istream EmptyString true true, old).
Proof.
  intros Hsep ->.
  unfold get_char, sentry, good. cbn [buf failbit eofbit negb andb].
  destruct sep as [| c t]; cbn [is_empty negb]; [reflexivity |].
  rewrite Hsep. reflexivity.
Qed.

(** X8.  At the menu, a line that does not start with a number (for
    instance "x" or "-") is answered with the invalid-option message: the
    rest of the line is dropped, [std::cin] is good again at the start of
    the next line, no component is called and the state is otherwise as
    before.  Here [b] is the unread input, [l] what is left of the
    offending line after the optional sign, [rest] the lines after it. *)
Theorem invalid_option_returns_to_menu :
  forall (P : Platform) (st : io P) (b l rest : string),
    cin st = stream_of b ->
    scan_number (skipws b) = (None, l ++ nl ++ rest) ->
    no_newline l = true ->
    menu_body st
    = (Continue,
       mk_io (stream_of rest) (cout st ++ menu_text ++ invalid_option_text)
         (cerr st) (os st) (calls st)).
Proof.
  intros P st b l rest Hcin Hscan Hl.
  unfold menu_body, print, set_cin. cbn [cin cout cerr os calls].
  rewrite Hcin, (get_int_no_number 0 b _ Hscan (is_empty_line l rest)).
  cbn [fail failbit]. rewrite (clear_discards_line l rest true false Hl).
  cbn [cin cout cerr os calls]. rewrite append_assoc. reflexivity.
Qed.

Lemma invalid_option_returns_to_menu_witness :
  menu_body (linux_start ("x1" ++ nl ++ "4" ++ nl))
  = (Continue,
     @mk_io (PosixPlatform Posix.LinuxGlibc) (stream_of ("4" ++ nl))
       (menu_text ++ invalid_option_text) EmptyString linux_fixture []).
Proof.
  apply (invalid_option_returns_to_menu (PosixPlatform Posix.LinuxGlibc)
           (linux_start ("x1" ++ nl ++ "4" ++ nl))
           ("x1" ++ nl ++ "4" ++ nl) "x1" ("4" ++ nl));
    reflexivity.
Defined.

Lemma menu_body_at_eof (P : Platform) (st : io P) :
  buf (cin st) = EmptyString ->
  menu_body st
  = (Continue,
     mk_io (mk_istream EmptyString true true)
       (cout st ++ menu_text ++ invalid_option_text) (cerr st) (os st) (calls st)).
Proof.
  intros Hbuf.
  unfold menu_body, print, set_cin. cbn [cin cout cerr os calls].
  destruct (cin st) as [b f e]. cbn [buf] in Hbuf. subst b.
  destruct f, e; cbn; rewrite append_assoc; reflexivity.
Qed.

(** X9.  Once the input is exhausted the menu never ends: every pass prints
    the menu and the invalid-option message, calls no component and leaves
    the input exhausted, so [runInteractiveMenu] does not return within any
    number of passes, and neither does [main] without arguments. *)
Theorem menu_never_ends_at_end_of_input :
  forall (P : Platform) (st : io P) (argv0 : string),
    buf (cin st) = EmptyString ->
    (exists st',
        menu_body st = (Continue, st')
        /\ buf (cin st') = EmptyString
        /\ os st' = os st /\ calls st' = calls st
        /\ cout st' = cout st ++ menu_text ++ invalid_option_text)
    /\ (forall fuel, runInteractiveMenu fuel st = None)
    /\ (forall fuel, main fuel [argv0] st = OutOfFuel).
Proof.
  intros P st argv0 Hbuf.
  assert (Hloop : forall fuel (s : io P),
             buf (cin s) = EmptyString -> runInteractiveMenu fuel s = None).
  { induction fuel as [| fuel IH]; intros s Hs; [reflexivity |].
    cbn [runInteractiveMenu]. rewrite (menu_body_at_eof P s Hs).
    apply IH. reflexivity. }
  split; [| split].
  - eexists. split; [apply menu_body_at_eof, Hbuf |].
    repeat split; reflexivity.
  - intros fuel. apply Hloop, Hbuf.
  - intros fuel. unfold main. rewrite (Hloop fuel st Hbuf). reflexivity.
Qed.

Lemma menu_never_ends_at_end_of_input_witness :
  main 1000 ["prog"] (linux_start EmptyString) = OutOfFuel
  /\ runInteractiveMenu 1000 (linux_start EmptyString) = None.
Proof.
  destruct (menu_never_ends_at_end_of_input (PosixPlatform Posix.LinuxGlibc)
              (linux_start EmptyString) "prog" eq_refl) as (_ & Hloop & Hmain).
  split; [apply Hmain | apply Hloop].
Defined.

(** X10.  An option number other than 1, 2, 3 and 4 is ignored without any
    message: the pass prints the menu, consumes the number and goes on to
    the next pass; no component is called. *)
Theorem unknown_option_number_ignored :
  forall (P : Platform) (st : io P) (pre rest : string) (n : N),
    cin st = stream_of (pre ++ show_N n ++ rest) ->
    skipws pre = EmptyString ->
    starts_with_digit rest = false ->
    (n = 0 \/ 5 <= n)%N -> (Z.of_N n <= INT_MAX)%Z ->
    menu_body st
    = (Continue,
       mk_io (mk_istream rest false (is_empty rest)) (cout st ++ menu_text)
         (cerr st) (os st) (calls st)).
Proof.
  intros P st pre rest n Hcin Hpre Hr Hn Hmax.
  unfold menu_body, print, set_cin. cbn [cin cout cerr os calls].
  rewrite Hcin, (get_int_show 0 pre n rest Hpre Hr Hmax). cbn [fail failbit].
  destruct (Z.eqb_spec (Z.of_N n) 4); [lia |].
  destruct (Z.eqb_spec (Z.of_N n) 1); [lia |].
  destruct (Z.eqb_spec (Z.of_N n) 2); [lia |].
  destruct (Z.eqb_spec (Z.of_N n) 3); [lia |].
  reflexivity.
Qed.

Lemma unknown_option_number_ignored_witness :
  menu_body (linux_start ("7" ++ nl ++ "4" ++ nl))
  = (Continue,
     @mk_io (PosixPlatform Posix.LinuxGlibc) (stream_of (nl ++ "4" ++ nl))
       menu_text EmptyString linux_fixture []).
Proof.
  apply (unknown_option_number_ignored (PosixPlatform Posix.LinuxGlibc)
           (linux_start ("7" ++ nl ++ "4" ++ nl)) EmptyString (nl ++ "4" ++ nl) 7%N);
    [reflexivity | reflexivity | reflexivity | right; discriminate
    | vm_compute; discriminate].
Defined.

(** X11.  Option 4 ends the program: when the next number in the input is
    4, [main] without arguments returns 0 after one pass, having printed
    only the menu and called no component. *)
Theorem option_4_exits :
  forall (P : Platform) (fuel : nat) (argv0 pre rest : string) (st : io P),
    cin st = stream_of (pre ++ "4" ++ rest) ->
    skipws pre = EmptyString ->
    starts_with_digit rest = false ->
    main (S fuel) [argv0] st
    = Returned 0
        (mk_io (mk_istream rest false (is_empty rest)) (cout st ++ menu_text)
           (cerr st) (os st) (calls st)).
Proof.
  intros P fuel argv0 pre rest st Hcin Hpre Hr.
  unfold main. cbn [runInteractiveMenu].
  unfold menu_body, print, set_cin. cbn [cin cout cerr os calls].
  rewrite Hcin. change ("4" ++ rest) with (show_N 4 ++ rest).
  rewrite (get_int_show 0 pre 4 rest Hpre Hr) by (vm_compute; discriminate).
  reflexivity.
Qed.

Lemma option_4_exits_witness :
  main 1 ["prog"] (linux_start (" 4" ++ nl))
  = Returned 0
      (@mk_io (PosixPlatform Posix.LinuxGlibc) (stream_of nl)
         menu_text EmptyString linux_fixture []).
Proof.
  apply (option_4_exits (PosixPlatform Posix.LinuxGlibc) 0 "prog" " " nl
           (linux_start (" 4" ++ nl)));
    reflexivity.
Defined.

(** X12.  After option 2 the menu takes as threshold the decimal number at
    the start of the input and, as the answer to the kill question, the
    next character that is not white space - also when it follows the
    number directly, so that "12s" means threshold 12 and kill.  The listing
    then runs with that threshold: the enumerator is called once with it,
    and the terminator once per returned record exactly when the answer is
    one of s, S, y, Y. *)
Theorem menu_reads_threshold_and_answer :
  forall (P : Platform) (st : io P) (pre sep rest : string) (T : N) (ch : ascii),
    get_int 0 (cin st) = (stream_of (pre ++ show_N T ++ sep ++ String ch rest), 2%Z) ->
    skipws pre = EmptyString ->
    (T <= SIZE_MAX)%N ->
    skipws sep = EmptyString -> isspace ch = false ->
    starts_with_digit (sep ++ String ch rest) = false ->
    let start :=
      mk_io (stream_of rest)
        (cout st ++ menu_text ++ threshold_prompt ++ kill_prompt)
        (cerr st) (os st) (calls st) in
    menu_body st = (Continue, menu_list T (is_yes ch) start)
    /\ calls (menu_list T (is_yes ch) start)
       = (calls st ++ CallList T
            :: loop_calls (listHighMemoryProcesses T (os st)) (is_yes ch))%list.
Proof.
  intros P st pre sep rest T ch Hopt Hpre HT Hsep Hch Hr start.
  split.
  - apply (menu_list_entry st _ _ _ T ch Hopt eq_refl
             (get_unsigned_show SIZE_MAX 0 pre T _ Hpre Hr HT) eq_refl).
    rewrite is_empty_before_char. apply get_char_next; assumption.
  - rewrite menu_list_spec. reflexivity.
Qed.

Lemma menu_reads_threshold_and_answer_witness :
  exists st',
    menu_body (linux_start ("2" ++ nl ++ "50s" ++ nl)) = (Continue, st')
    /\ calls st' = [CallList 50; CallTerminate 101; CallTerminate 103].
Proof.
  destruct (menu_reads_threshold_and_answer (PosixPlatform Posix.LinuxGlibc)
              (linux_start ("2" ++ nl ++ "50s" ++ nl)) nl EmptyString nl 50%N "s"%char)
    as [Hbody Hcalls];
    try reflexivity; [vm_compute; discriminate |].
  eexists. split; [exact Hbody | exact Hcalls].
Defined.

(** X13.  When the input ends after the threshold, the kill question is
    answered by its default, n: the listing runs without killing, the
    terminator is not called and the world is left as it was. *)
Theorem menu_missing_answer_does_not_kill :
  forall (P : Platform) (st : io P) (pre sep : string) (T : N),
    get_int 0 (cin st) = (stream_of (pre ++ show_N T ++ sep), 2%Z) ->
    skipws pre = EmptyString ->
    (T <= SIZE_MAX)%N ->
    skipws sep = EmptyString ->
    exists st',
      menu_body st = (Continue, st')
      /\ os st' = os st
      /\ calls st' = (calls st ++ [CallList T])%list
      /\ cin st' = mk_istream EmptyString true true.
Proof.
  intros P st pre sep T Hopt Hpre HT Hsep.
  rewrite (menu_list_entry st _ _ _ T "n"%char Hopt eq_refl
             (get_unsigned_show SIZE_MAX 0 pre T sep Hpre (space_not_digit sep Hsep) HT)
             eq_refl
             (get_char_at_end "n"%char sep _ Hsep eq_refl)).
  eexists. split; [reflexivity |].
  rewrite menu_list_spec. cbn [cin cout cerr os calls is_yes].
  split; [apply loop_report_nokill |]. split; reflexivity.
Qed.

Lemma menu_missing_answer_does_not_kill_witness :
  exists st',
    menu_body (linux_start ("2" ++ nl ++ "50" ++ nl)) = (Continue, st')
    /\ os st' = linux_fixture
    /\ calls st' = [CallList 50]
    /\ cin st' = mk_istream EmptyString true true.
Proof.
  apply (menu_missing_answer_does_not_kill (PosixPlatform Posix.LinuxGlibc)
           (linux_start ("2" ++ nl ++ "50" ++ nl)) nl nl 50%N);
    try reflexivity. vm_compute; discriminate.
Defined.

(** X14.  At the menu a threshold above [SIZE_MAX] is rejected like a
    non-number (where the one-shot path raises [std::out_of_range]): the
    pass prints the invalid-threshold message, drops the rest of the line
    and goes on; the enumerator is not called and the state is otherwise as
    before. *)
Theorem menu_rejects_oversized_threshold :
  forall (P : Platform) (st : io P) (pre l rest : string) (n : N),
    get_int 0 (cin st) = (stream_of (pre ++ show_N n ++ l ++ nl ++ rest), 2%Z) ->
    skipws pre = EmptyString ->
    (SIZE_MAX < n)%N ->
    starts_with_digit (l ++ nl ++ rest) = false ->
    no_newline l = true ->
    menu_body st
    = (Continue,
       mk_io (stream_of rest)
         (cout st ++ menu_text ++ threshold_prompt ++ invalid_threshold_text)
         (cerr st) (os st) (calls st)).
Proof.
  intros P st pre l rest n Hopt Hpre Hn Hr Hl.
  unfold menu_body, print, set_cin. cbn [cin cout cerr os calls].
  rewrite Hopt. cbn [fail failbit stream_of Z.eqb Pos.eqb orb].
  change (mk_istream ?b false false) with (stream_of b).
  cbn [cin cout cerr os calls].
  rewrite (get_unsigned_show_overflow SIZE_MAX 0 pre n _ Hpre Hr Hn).
  cbn [fail failbit]. rewrite (clear_discards_line l rest _ _ Hl).
  cbn [cin cout cerr os calls]. rewrite !append_assoc. reflexivity.
Qed.

Lemma menu_rejects_oversized_threshold_witness :
  menu_body (linux_start ("2" ++ nl ++ "18446744073709551616" ++ nl ++ "4" ++ nl))
  = (Continue,
     @mk_io (PosixPlatform Posix.LinuxGlibc) (stream_of ("4" ++ nl))
       (menu_text ++ threshold_prompt ++ invalid_threshold_text)
       EmptyString linux_fixture []).
Proof.
  apply (menu_rejects_oversized_threshold (PosixPlatform Posix.LinuxGlibc)
           (linux_start ("2" ++ nl ++ "18446744073709551616" ++ nl ++ "4" ++ nl))
           nl EmptyString ("4" ++ nl) 18446744073709551616%N);
    reflexivity.
Defined.

(** ** The enumerator *)

Lemma threshold_bytes_mono (T1 T2 : N) :
  (T1 <= T2)%N -> (T2 < 2 ^ 44)%N -> (threshold_bytes T1 <= threshold_bytes T2)%N.
Proof.
  intros H12 H2.
  rewrite (threshold_bytes_exact T2 H2), (threshold_bytes_exact T1) by lia. lia.
Qed.

Lemma win_scan_entries_mono w T1 T2 es :
  (threshold_bytes T1 <= threshold_bytes T2)%N ->
  incl (Windows.scan_entries w T2 es) (Windows.scan_entries w T1 es).
Proof.
  intros Hb. induction es as [| pe es IH]; [apply incl_refl |].
  cbn [Windows.scan_entries]. apply incl_app; [apply incl_appl | apply incl_appr, IH].
  rewrite !win_scan_entry_cases.
  destruct (N.leb_spec (threshold_bytes T2) (win_rss w (Windows.th32ProcessID pe)));
    [| apply incl_nil_l].
  destruct (N.leb_spec (threshold_bytes T1) (win_rss w (Windows.th32ProcessID pe)));
    [apply incl_refl | lia].
Qed.

Lemma linux_scan_entries_mono w T1 T2 es :
  (threshold_bytes T1 <= threshold_bytes T2)%N ->
  incl (Posix.scan_entries w T2 es) (Posix.scan_entries w T1 es).
Proof.
  intros Hb. induction es as [| e es IH]; [apply incl_refl |].
  cbn [Posix.scan_entries]. apply incl_app; [apply incl_appl | apply incl_appr, IH].
  rewrite !linux_scan_entry_cases.
  destruct (atoi e <=? 0)%Z; [apply incl_refl |]. cbv zeta.
  destruct (fail _); [apply incl_refl |].
  match goal with
  | |- context [(threshold_bytes T2 <=? ?r)%N] =>
      destruct (N.leb_spec (threshold_bytes T2) r); [| apply incl_nil_l];
      destruct (N.leb_spec (threshold_bytes T1) r); [apply incl_refl | lia]
  end.
Qed.

(** X15.  Raising the threshold only removes records: for T1 <= T2 below
    2^44 MB, every record listed at T2 is listed, unchanged, at T1, on both
    platforms. *)
Theorem listing_antitone_in_threshold :
  forall (T1 T2 : N) (ww : Windows.world) (t : Posix.target) (pw : Posix.world),
    (T1 <= T2)%N -> (T2 < 2 ^ 44)%N ->
    incl (Windows.listHighMemoryProcesses T2 ww) (Windows.listHighMemoryProcesses T1 ww)
    /\ incl (Posix.listHighMemoryProcesses t T2 pw)
            (Posix.listHighMemoryProcesses t T1 pw).
Proof.
  intros T1 T2 ww t pw H12 H2.
  pose proof (threshold_bytes_mono T1 T2 H12 H2) as Hb. split.
  - unfold Windows.listHighMemoryProcesses.
    destruct (Windows.snapshot ww); [apply win_scan_entries_mono, Hb | apply incl_refl].
  - unfold Posix.listHighMemoryProcesses.
    destruct t; try apply incl_refl;
      (destruct (Posix.proc_dir pw);
       [apply linux_scan_entries_mono, Hb | apply incl_refl]).
Qed.

Lemma listing_antitone_in_threshold_witness :
  incl (Windows.listHighMemoryProcesses 100 windows_fixture)
       (Windows.listHighMemoryProcesses 2 windows_fixture)
  /\ incl (Posix.listHighMemoryProcesses Posix.LinuxGlibc 100 linux_fixture)
          (Posix.listHighMemoryProcesses Posix.LinuxGlibc 2 linux_fixture).
Proof.
  apply (listing_antitone_in_threshold 2 100 windows_fixture Posix.LinuxGlibc
           linux_fixture);
    [discriminate | reflexivity].
Defined.

Lemma win_scan_entries_in w T es pe :
  In pe es -> incl (Windows.scan_entry w T pe) (Windows.scan_entries w T es).
Proof.
  induction es as [| x es IH]; [intros [] |].
  intros [-> | H]; cbn [Windows.scan_entries];
    [apply incl_appl, incl_refl | apply incl_appr, IH, H].
Qed.

Lemma linux_scan_entries_in w T es e :
  In e es -> incl (Posix.scan_entry w T e) (Posix.scan_entries w T es).
Proof.
  induction es as [| x es IH]; [intros [] |].
  intros [-> | H]; cbn [Posix.scan_entries];
    [apply incl_appl, incl_refl | apply incl_appr, IH, H].
Qed.

(** X16.  The listing is complete below 2^44 MB: on Windows every snapshot
    entry whose working set (0 when it cannot be read) is at least T MB, and
    on Linux every [/proc] entry with a positive number for a name, a
    [statm] that opens and a resident size of at least T MB, has its record
    in the result. *)
Theorem listing_complete_in_range :
  forall (T : N) (ww : Windows.world) (wes : list Windows.PROCESSENTRY32)
         (pe : Windows.PROCESSENTRY32)
         (pw : Posix.world) (pes : list string) (d_name text : string),
    (T < 2 ^ 44)%N ->
    (Windows.snapshot ww = Some wes -> In pe wes ->
     (T * 1024 * 1024 <= win_rss ww (Windows.th32ProcessID pe))%N ->
     In (mk_record (Windows.th32ProcessID pe)
                   (Windows.tchar_to_utf8 (Windows.szExeFile pe))
                   (win_rss ww (Windows.th32ProcessID pe)))
        (Windows.listHighMemoryProcesses T ww))
    /\
    (Posix.proc_dir pw = Some pes -> In d_name pes ->
     (0 < atoi d_name)%Z ->
     Posix.lookup_file (Posix.files pw) ("/proc/" ++ d_name ++ "/statm") = Some text ->
     (T * 1024 * 1024 <= linux_rss pw (stream_of text))%N ->
     In (mk_record (atoi d_name) (linux_name pw d_name) (linux_rss pw (stream_of text)))
        (Posix.listHighMemoryProcesses Posix.LinuxGlibc T pw)).
Proof.
  intros T ww wes pe pw pes d_name text HT. split.
  - intros Hsnap Hin Hrss. unfold Windows.listHighMemoryProcesses. rewrite Hsnap.
    apply (win_scan_entries_in ww T wes pe Hin).
    rewrite win_scan_entry_cases, (threshold_bytes_exact T HT).
    rewrite (proj2 (N.leb_le _ _) Hrss). left. reflexivity.
  - intros Hdir Hin Hpid Hstatm Hrss. unfold Posix.listHighMemoryProcesses.
    rewrite Hdir. apply (linux_scan_entries_in pw T pes d_name Hin).
    rewrite linux_scan_entry_cases, (threshold_bytes_exact T HT).
    destruct (Z.leb_spec (atoi d_name) 0); [lia |].
    unfold Posix.open_file. rewrite Hstatm. cbv zeta. cbn [ifstream_open fail stream_of failbit].
    change (mk_istream text false false) with (stream_of text).
    rewrite (proj2 (N.leb_le _ _) Hrss). left. reflexivity.
Qed.

Lemma listing_complete_in_range_witness :
  In (mk_record 200 "big.exe" (200 * MB))
     (Windows.listHighMemoryProcesses 150 windows_fixture)
  /\ In (mk_record 103 EmptyString (50 * MB))
        (Posix.listHighMemoryProcesses Posix.LinuxGlibc 50 linux_fixture).
Proof.
  destruct (listing_complete_in_range 150 windows_fixture
              [Windows.mk_entry 4 (Some "System");
               Windows.mk_entry 200 (Some "big.exe");
               Windows.mk_entry 300 (Some "small.exe")]
              (Windows.mk_entry 200 (Some "big.exe"))
              linux_fixture
              ["."; ".."; "self"; "101"; "102"; "103"; "104"; "cpuinfo"]
              "103" ("30000 12800 100 1 0 2 0" ++ nl)) as [Hw _];
    [reflexivity |].
  destruct (listing_complete_in_range 50 windows_fixture
              [Windows.mk_entry 4 (Some "System");
               Windows.mk_entry 200 (Some "big.exe");
               Windows.mk_entry 300 (Some "small.exe")]
              (Windows.mk_entry 200 (Some "big.exe"))
              linux_fixture
              ["."; ".."; "self"; "101"; "102"; "103"; "104"; "cpuinfo"]
              "103" ("30000 12800 100 1 0 2 0" ++ nl)) as [_ Hl];
    [reflexivity |].
  split.
  - apply Hw; [reflexivity | right; left; reflexivity | vm_compute; discriminate].
  - apply Hl; [reflexivity | do 5 right; left; reflexivity | reflexivity
              | reflexivity | vm_compute; discriminate].
Defined.

Lemma win_scan_entries_0 w es :
  Windows.scan_entries w 0 es
  = map (fun pe => mk_record (Windows.th32ProcessID pe)
                     (Windows.tchar_to_utf8 (Windows.szExeFile pe))
                     (win_rss w (Windows.th32ProcessID pe))) es.
Proof.
  induction es as [| pe es IH]; [reflexivity |].
  cbn [Windows.scan_entries map]. rewrite win_scan_entry_0, IH. reflexivity.
Qed.

(** X17.  At threshold 0 the Windows listing has exactly one record per
    snapshot entry, in snapshot order, with the entry's pid and converted
    name and the working set read for it (0 when it cannot be read). *)
Theorem windows_threshold_zero_lists_snapshot :
  forall (w : Windows.world) (es : list Windows.PROCESSENTRY32),
    Windows.snapshot w = Some es ->
    Windows.listHighMemoryProcesses 0 w
    = map (fun pe => mk_record (Windows.th32ProcessID pe)
                       (Windows.tchar_to_utf8 (Windows.szExeFile pe))
                       (win_rss w (Windows.th32ProcessID pe))) es.
Proof.
  intros w es Hsnap. unfold Windows.listHighMemoryProcesses. rewrite Hsnap.
  apply win_scan_entries_0.
Qed.

Lemma windows_threshold_zero_lists_snapshot_witness :
  Windows.listHighMemoryProcesses 0 windows_fixture
  = [mk_record 4 "System" 0; mk_record 200 "big.exe" (200 * MB);
     mk_record 300 "small.exe" (2 * MB)].
Proof.
  exact (windows_threshold_zero_lists_snapshot windows_fixture
           [Windows.mk_entry 4 (Some "System");
            Windows.mk_entry 200 (Some "big.exe");
            Windows.mk_entry 300 (Some "small.exe")] eq_refl).
Defined.

Lemma win_scan_entries_from w T es r :
  In r (Windows.scan_entries w T es) ->
  exists pe, In pe es
             /\ r = mk_record (Windows.th32ProcessID pe)
                      (Windows.tchar_to_utf8 (Windows.szExeFile pe))
                      (win_rss w (Windows.th32ProcessID pe)).
Proof.
  induction es as [| pe es IH]; [intros [] |].
  cbn [Windows.scan_entries]. rewrite in_app_iff. intros [H | H].
  - rewrite win_scan_entry_cases in H.
    destruct (threshold_bytes T <=? _)%N; [| destruct H].
    destruct H as [<- | []]. exists pe. split; [left |]; reflexivity.
  - destruct (IH H) as (pe' & Hin & E). exists pe'. split; [right |]; assumption.
Qed.

Lemma linux_scan_entries_from w T es r :
  In r (Posix.scan_entries w T es) ->
  exists d text, In d es
    /\ (0 < atoi d)%Z
    /\ Posix.lookup_file (Posix.files w) ("/proc/" ++ d ++ "/statm") = Some text
    /\ r = mk_record (atoi d) (linux_name w d) (linux_rss w (stream_of text)).
Proof.
  induction es as [| e es IH]; [intros [] |].
  cbn [Posix.scan_entries]. rewrite in_app_iff. intros [H | H].
  - rewrite linux_scan_entry_cases in H.
    destruct (Z.leb_spec (atoi e) 0); [destruct H |].
    unfold Posix.open_file in H.
    destruct (Posix.lookup_file (Posix.files w) ("/proc/" ++ e ++ "/statm"))
      as [text |] eqn:Hf; [| destruct H].
    cbv zeta in H. cbn [ifstream_open fail stream_of failbit] in H.
    destruct (threshold_bytes T <=? _)%N; [| destruct H].
    destruct H as [<- | []]. exists e, text.
    split; [left; reflexivity |]. split; [assumption |].
    split; [exact Hf | reflexivity].
  - destruct (IH H) as (d & text & Hin & Hrest). exists d, text.
    split; [right; assumption | exact Hrest].
Qed.

Lemma win_scan_entries_length w T es :
  (List.length (Windows.scan_entries w T es) <= List.length es)%nat.
Proof.
  induction es as [| pe es IH]; [apply Nat.le_refl |].
  cbn [Windows.scan_entries]. rewrite List.length_app, win_scan_entry_cases.
  destruct (threshold_bytes T <=? _)%N; simpl; lia.
Qed.

Lemma linux_scan_entries_length w T es :
  (List.length (Posix.scan_entries w T es) <= List.length es)%nat.
Proof.
  induction es as [| e es IH]; [apply Nat.le_refl |].
  cbn [Posix.scan_entries]. rewrite List.length_app, linux_scan_entry_cases.
  destruct (atoi e <=? 0)%Z; [simpl; lia |]. cbv zeta.
  destruct (fail _); [simpl; lia |].
  destruct (threshold_bytes T <=? _)%N; simpl; lia.
Qed.

(** X18.  The listing invents nothing.  Every Windows record is made from a
    snapshot entry (its pid, its converted name, the working set read for
    it); every Linux record is made from a [/proc] entry whose name [atoi]
    turns into a positive pid and whose [statm] opened; and there are never
    more records than entries. *)
Theorem records_come_from_entries :
  forall (T : N) (ww : Windows.world) (t : Posix.target) (pw : Posix.world)
         (r : proc_record),
    (In r (Windows.listHighMemoryProcesses T ww) ->
     exists es pe,
       Windows.snapshot ww = Some es /\ In pe es
       /\ r = mk_record (Windows.th32ProcessID pe)
                (Windows.tchar_to_utf8 (Windows.szExeFile pe))
                (win_rss ww (Windows.th32ProcessID pe))
       /\ (List.length (Windows.listHighMemoryProcesses T ww) <= List.length es)%nat)
    /\
    (In r (Posix.listHighMemoryProcesses t T pw) ->
     exists es d text,
       Posix.proc_dir pw = Some es /\ In d es
       /\ (0 < rec_pid r)%Z
       /\ Posix.lookup_file (Posix.files pw) ("/proc/" ++ d ++ "/statm") = Some text
       /\ r = mk_record (atoi d) (linux_name pw d) (linux_rss pw (stream_of text))
       /\ (List.length (Posix.listHighMemoryProcesses t T pw) <= List.length es)%nat).
Proof.
  intros T ww t pw r. split.
  - unfold Windows.listHighMemoryProcesses.
    destruct (Windows.snapshot ww) as [es |]; [| intros []].
    intros H. destruct (win_scan_entries_from ww T es r H) as (pe & Hin & E).
    exists es, pe. repeat split; try assumption. apply win_scan_entries_length.
  - unfold Posix.listHighMemoryProcesses.
    assert (Hlinux :
      In r (match Posix.proc_dir pw with
            | Some es => Posix.scan_entries pw T es
            | None => []
            end) ->
      exists es d text,
        Posix.proc_dir pw = Some es /\ In d es
        /\ (0 < rec_pid r)%Z
        /\ Posix.lookup_file (Posix.files pw) ("/proc/" ++ d ++ "/statm") = Some text
        /\ r = mk_record (atoi d) (linux_name pw d) (linux_rss pw (stream_of text))
        /\ (List.length (match Posix.proc_dir pw with
                    | Some es => Posix.scan_entries pw T es
                    | None => []
                    end) <= List.length es)%nat).
    { destruct (Posix.proc_dir pw) as [es |]; [| intros []].
      intros H.
      destruct (linux_scan_entries_from pw T es r H) as (d & text & Hin & Hpid & Hf & E).
      exists es, d, text. subst r. cbn [rec_pid].
      repeat split; try assumption. apply linux_scan_entries_length. }
    destruct t; [exact Hlinux | exact Hlinux | intros []].
Qed.

Lemma records_come_from_entries_witness :
  exists es d text,
    Posix.proc_dir linux_fixture = Some es /\ In d es
    /\ (0 < 103)%Z
    /\ Posix.lookup_file (Posix.files linux_fixture) ("/proc/" ++ d ++ "/statm")
       = Some text
    /\ mk_record 103 EmptyString (50 * MB)
       = mk_record (atoi d) (linux_name linux_fixture d)
           (linux_rss linux_fixture (stream_of text))
    /\ (List.length (Posix.listHighMemoryProcesses Posix.LinuxGlibc 50 linux_fixture)
        <= List.length es)%nat.
Proof.
  apply (proj2 (records_come_from_entries 50 windows_fixture Posix.LinuxGlibc
                  linux_fixture (mk_record 103 EmptyString (50 * MB)))).
  right. left. reflexivity.
Defined.

(** ** The Linux enumerator on the text of [/proc] *)

Lemma atoi_show p :
  (Z.of_N p <= INT_MAX)%Z -> atoi (show_N p) = Z.of_N p.
Proof.
  intros Hp. unfold atoi.
  replace (show_N p) with (show_N p ++ EmptyString) by apply append_nil_r.
  rewrite skipws_show, (scan_number_show p EmptyString eq_refl).
  unfold int_of_long, LONG_MAX, INT_MAX in *.
  change (2 ^ 31)%Z with 2147483648%Z in *.
  change (2 ^ 32)%Z with 4294967296%Z.
  change (2 ^ 63)%Z with 9223372036854775808%Z.
  rewrite Z.min_r by lia. rewrite Z.mod_small by lia. lia.
Qed.

Lemma size_t_of_long_nonneg z :
  (0 <= z < 2 ^ 63)%Z -> size_t_of_long z = Z.to_N z.
Proof.
  intros Hz. unfold size_t_of_long, size_t_modulus.
  change (Z.of_N (2 ^ 64)) with 18446744073709551616%Z.
  change (2 ^ 63)%Z with 9223372036854775808%Z in Hz.
  rewrite Z.mod_small by lia. reflexivity.
Qed.

(** The resident size read from a [statm] that starts with two decimal
    numbers: the second one times the page size, modulo [2^64]. *)
Lemma linux_rss_statm w a b tail :
  (a <= SIZE_MAX)%N -> (b <= SIZE_MAX)%N -> starts_with_digit tail = false ->
  linux_rss w (stream_of (show_N a ++ " " ++ show_N b ++ tail))
  = wrap_size_t (b * size_t_of_long (Posix.pagesize w)).
Proof.
  intros Ha Hb Ht. unfold linux_rss.
  change (stream_of (show_N a ++ " " ++ show_N b ++ tail))
    with (stream_of (EmptyString ++ show_N a ++ " " ++ show_N b ++ tail)).
  rewrite (get_unsigned_show SIZE_MAX 0 EmptyString a (" " ++ show_N b ++ tail)
             eq_refl eq_refl Ha).
  cbn [is_empty append].
  change (mk_istream (String " " (show_N b ++ tail)) false false)
    with (stream_of (" " ++ show_N b ++ tail)).
  rewrite (get_unsigned_show SIZE_MAX 0 " " b tail eq_refl Ht Hb). reflexivity.
Qed.

Lemma getline_first_line name more :
  no_newline name = true ->
  getline EmptyString (stream_of (name ++ nl ++ more)) = (stream_of more, name).
Proof.
  intros Hn. unfold getline, sentry, stream_of, good.
  cbn [buf failbit eofbit negb andb].
  rewrite (split_line_app name more Hn). reflexivity.
Qed.

Lemma get_unsigned_after_failure max old s :
  failbit s = true -> snd (get_unsigned max old s) = old.
Proof.
  intros Hf. unfold get_unsigned, sentry, good. rewrite Hf. reflexivity.
Qed.

Lemma get_unsigned_no_number_fails max old text junk :
  scan_number (skipws text) = (None, junk) ->
  failbit (fst (get_unsigned max old (stream_of text))) = true.
Proof.
  intros Hscan.
  unfold get_unsigned, sentry, stream_of, good. cbn [buf failbit eofbit negb andb].
  destruct (skipws text) as [| c t]; [reflexivity |].
  cbn [buf]. rewrite Hscan. reflexivity.
Qed.

(** X19.  What the Linux enumerator makes of the text in [/proc].  For an
    entry named by the decimal text of a pid p (0 < p <= INT_MAX), whose
    [statm] starts with two decimal numbers a and b and whose [comm] has
    [name] as its first line, the record - listed when its size meets the
    bound - is (p, name, b * page size mod 2^64): the second field of
    [statm] counts resident pages, the first is read and ignored.  An entry
    whose name does not start with a number (".", "self", "cpuinfo") yields
    no record, whatever the files hold. *)
Theorem linux_record_from_proc_text :
  forall (w : Posix.world) (T p a b : N) (tail name more d junk : string),
    ((0 < p)%N -> (Z.of_N p <= INT_MAX)%Z ->
     (a <= SIZE_MAX)%N -> (b <= SIZE_MAX)%N ->
     starts_with_digit tail = false ->
     (0 <= Posix.pagesize w < 2 ^ 63)%Z ->
     Posix.lookup_file (Posix.files w) ("/proc/" ++ show_N p ++ "/statm")
       = Some (show_N a ++ " " ++ show_N b ++ tail) ->
     Posix.lookup_file (Posix.files w) ("/proc/" ++ show_N p ++ "/comm")
       = Some (name ++ nl ++ more) ->
     no_newline name = true ->
     Posix.scan_entry w T (show_N p)
     = if (threshold_bytes T <=? wrap_size_t (b * Z.to_N (Posix.pagesize w)))%N
       then [mk_record (Z.of_N p) name (wrap_size_t (b * Z.to_N (Posix.pagesize w)))]
       else [])
    /\
    (scan_number (skipws d) = (None, junk) -> Posix.scan_entry w T d = []).
Proof.
  intros w T p a b tail name more d junk. split.
  - intros Hp Hmax Ha Hb Ht Hps Hstatm Hcomm Hname.
    rewrite linux_scan_entry_cases, (atoi_show p Hmax).
    destruct (Z.leb_spec (Z.of_N p) 0); [lia |].
    unfold Posix.open_file, linux_name. rewrite Hstatm.
    cbv zeta. cbn [ifstream_open fail failbit].
    change (failbit (stream_of ?s)) with false. cbv iota.
    rewrite (linux_rss_statm w a b tail Ha Hb Ht), (size_t_of_long_nonneg _ Hps).
    unfold Posix.open_file. rewrite Hcomm. cbn [ifstream_open fail].
    change (failbit (stream_of ?s)) with false. cbv iota.
    rewrite (getline_first_line name more Hname). reflexivity.
  - intros Hscan. unfold Posix.scan_entry, atoi. rewrite Hscan. reflexivity.
Qed.

Lemma linux_record_from_proc_text_witness :
  Posix.scan_entry linux_fixture 50 "101" = [mk_record 101 "big" (100 * MB)]
  /\ Posix.scan_entry linux_fixture 0 "cpuinfo" = [].
Proof.
  destruct (linux_record_from_proc_text linux_fixture 50 101 30000 25600
              (" 100 1 0 2 0" ++ nl) "big" EmptyString "cpuinfo" "cpuinfo")
    as [Hrec Hskip].
  split.
  - apply Hrec; try reflexivity; try (vm_compute; discriminate).
    split; [discriminate | reflexivity].
  - apply Hskip. reflexivity.
Defined.

(** X20.  A [statm] that opens but does not start with a number (an empty
    file, for instance) counts as 0 resident bytes: the process is listed at
    threshold 0 with [residentBytes = 0] and omitted at thresholds from 1 up
    to (not including) 2^44 MB. *)
Theorem unparsable_statm_counts_as_zero :
  forall (w : Posix.world) (d_name text junk : string),
    (0 < atoi d_name)%Z ->
    Posix.lookup_file (Posix.files w) ("/proc/" ++ d_name ++ "/statm") = Some text ->
    scan_number (skipws text) = (None, junk) ->
    Posix.scan_entry w 0 d_name
      = [mk_record (atoi d_name) (linux_name w d_name) 0]
    /\ forall T, (1 <= T < 2 ^ 44)%N -> Posix.scan_entry w T d_name = [].
Proof.
  intros w d_name text junk Hpid Hstatm Hscan.
  assert (Hrss : linux_rss w (stream_of text) = 0%N).
  { unfold linux_rss.
    pose proof (get_unsigned_no_number_fails SIZE_MAX 0 text junk Hscan) as Hf.
    destruct (get_unsigned SIZE_MAX 0 (stream_of text)) as [f1 sizePages].
    cbn [fst] in Hf.
    pose proof (get_unsigned_after_failure SIZE_MAX 0 f1 Hf) as Hv.
    destruct (get_unsigned SIZE_MAX 0 f1) as [f2 resident].
    cbn [snd] in Hv. subst resident. reflexivity. }
  assert (Hcases : forall T,
    Posix.scan_entry w T d_name
    = if (threshold_bytes T <=? 0)%N
      then [mk_record (atoi d_name) (linux_name w d_name) 0] else []).
  { intros T. rewrite linux_scan_entry_cases.
    destruct (Z.leb_spec (atoi d_name) 0); [lia |].
    unfold Posix.open_file. rewrite Hstatm. cbv zeta. cbn [ifstream_open fail].
    change (failbit (stream_of ?s)) with false. cbv iota.
    rewrite Hrss. reflexivity. }
  split.
  - rewrite Hcases. reflexivity.
  - intros T [H1 H2]. rewrite Hcases.
    pose proof (threshold_bytes_positive T H1 H2).
    destruct (N.leb_spec (threshold_bytes T) 0); [lia | reflexivity].
Qed.

Lemma unparsable_statm_counts_as_zero_witness :
  let w := Posix.mk_world (Some ["7"]) [("/proc/7/statm", EmptyString)]
             4096 0 (0%Z, 0%N) [] [] in
  Posix.scan_entry w 0 "7" = [mk_record 7 EmptyString 0]
  /\ Posix.scan_entry w 1 "7" = [].
Proof.
  cbv zeta.
  destruct (unparsable_statm_counts_as_zero
              (Posix.mk_world (Some ["7"]) [("/proc/7/statm", EmptyString)]
                 4096 0 (0%Z, 0%N) [] [])
              "7" EmptyString EmptyString) as [H0 HT]; try reflexivity.
  split; [exact H0 |]. apply HT. split; [discriminate | reflexivity].
Defined.

(** X21.  Below 2^44 MB the number of MB printed for a listed process
    ([rss / 1024 / 1024]) is never below the threshold, on both
    platforms. *)
Theorem displayed_mb_at_least_threshold :
  forall (T : N) (ww : Windows.world) (t : Posix.target) (pw : Posix.world)
         (r : proc_record),
    (T < 2 ^ 44)%N ->
    (In r (Windows.listHighMemoryProcesses T ww) ->
     (T <= rec_rss r / 1024 / 1024)%N)
    /\ (In r (Posix.listHighMemoryProcesses t T pw) ->
        (T <= rec_rss r / 1024 / 1024)%N).
Proof.
  intros T ww t pw r HT.
  assert (Hdiv : forall x, (T * 1024 * 1024 <= x)%N -> (T <= x / 1024 / 1024)%N).
  { intros x Hx.
    apply N.div_le_lower_bound; [discriminate |].
    apply N.div_le_lower_bound; [discriminate |]. lia. }
  destruct (listed_meets_threshold_in_range T HT) as [Hw Hp].
  split; intros H; apply Hdiv; [eapply Hw | eapply Hp]; eassumption.
Qed.

Lemma displayed_mb_at_least_threshold_witness :
  (50 <= rec_rss (mk_record 103 EmptyString (50 * MB)) / 1024 / 1024)%N.
Proof.
  apply (proj2 (displayed_mb_at_least_threshold 50 windows_fixture Posix.LinuxGlibc
                  linux_fixture (mk_record 103 EmptyString (50 * MB)) eq_refl)).
  right. left. reflexivity.
Defined.

(** ** Option 3 of the menu *)

(** X22.  Option 3 is option 1 followed by option 2: the trimmer is called
    first, then the threshold and the answer are read and the listing runs
    on the world the trimmer left, so the calls of the pass are the trimmer,
    the enumerator with the threshold, and the terminator once per listed
    record when the answer is yes. *)
Theorem option_3_trims_then_lists :
  forall (P : Platform) (st : io P) (pre sep rest : string) (T : N) (ch : ascii),
    get_int 0 (cin st) = (stream_of (pre ++ show_N T ++ sep ++ String ch rest), 3%Z) ->
    skipws pre = EmptyString ->
    (T <= SIZE_MAX)%N ->
    skipws sep = EmptyString -> isspace ch = false ->
    starts_with_digit (sep ++ String ch rest) = false ->
    let trimmed := call_trim (print menu_text st) in
    let start :=
      mk_io (stream_of rest) (cout trimmed ++ threshold_prompt ++ kill_prompt)
        (cerr trimmed) (os trimmed) (calls trimmed) in
    menu_body st = (Continue, menu_list T (is_yes ch) start)
    /\ os trimmed = fst (fst (trimCurrentProcessWorkingSet (os st)))
    /\ calls (menu_list T (is_yes ch) start)
       = (calls st ++ CallTrim :: CallList T
            :: loop_calls (listHighMemoryProcesses T (os trimmed)) (is_yes ch))%list.
Proof.
  intros P st pre sep rest T ch Hopt Hpre HT Hsep Hch Hr trimmed start.
  split; [| split].
  - unfold menu_body, print, set_cin. cbn [cin cout cerr os calls].
    rewrite Hopt. cbn [fail failbit stream_of Z.eqb Pos.eqb orb].
    change (mk_istream ?b false false) with (stream_of b).
    subst start trimmed. unfold print. rewrite !call_trim_spec.
    cbn [cin cout cerr os calls].
    rewrite (get_unsigned_show SIZE_MAX 0 pre T _ Hpre Hr HT).
    cbn [fail failbit]. rewrite is_empty_before_char.
    change (mk_istream ?b false false) with (stream_of b).
    rewrite (get_char_next "n"%char sep ch rest Hsep Hch).
    rewrite !append_assoc. reflexivity.
  - subst trimmed. rewrite call_trim_spec. reflexivity.
  - rewrite menu_list_spec. subst start trimmed. rewrite call_trim_spec.
    cbn [cin cout cerr os calls]. unfold print. cbn [calls].
    rewrite <- app_assoc. reflexivity.
Qed.

Lemma option_3_trims_then_lists_witness :
  exists st',
    menu_body (linux_start ("3" ++ nl ++ "50" ++ nl ++ "n" ++ nl)) = (Continue, st')
    /\ calls st' = [CallTrim; CallList 50].
Proof.
  destruct (option_3_trims_then_lists (PosixPlatform Posix.LinuxGlibc)
              (linux_start ("3" ++ nl ++ "50" ++ nl ++ "n" ++ nl))
              nl nl nl 50%N "n"%char)
    as (Hbody & _ & Hcalls);
    try reflexivity; [vm_compute; discriminate |].
  eexists. split; [exact Hbody | exact Hcalls].
Defined.
